(** * did / cli.py: option parsing, time periods and the main loop

    A shallow embedding of [src/did/cli.py] (class [Options] with its
    methods [parse] and [time_period], and the function [main]) and the
    properties of the command line front end proved about it.

    Conventions of the embedding.
    - A [datetime.date] is its proleptic Gregorian ordinal, an integer
      ([date.toordinal()]); [d + delta(days=1)] is [d + 1] and
      [d - delta(days=1)] is [d - 1], and dates compare as integers. The
      calendar of [datetime] ends with 9999-12-31: a day added to a date
      read from the command line is checked against that end
      ([Calendar.add_day]). The current date is taken to lie before it,
      so that the day after today always exists.
    - A Python exception is a value of [exn]; a call that may raise has a
      result in [exn + A].
    - The ambient logging level, the [arguments] attribute of the
      [Options] object and everything written to the terminal or handed to
      the logger form an explicit [state] threaded through [parse] and
      [main]; the output is a chronological list of [event]s. The event
      [Collect] is a marker and no output: it records that the data
      collection of a user is entered.
    - The modules [did.base], [did.utils], [did.stats], [optparse],
      [kerberos], [ConfigParser] and [getpass] are collaborators:
      what [cli.py] takes from them is a field of [Collaborators]. *)

From Stdlib Require Import ZArith String Ascii List Lia.
From stdpp Require Import base list strings gmap pretty.

Open Scope Z_scope.

(** ** Exceptions *)

(** The exception classes [cli.py] names, and [OtherError] for every class
    that is none of them (a [ValueError] of a malformed date, ...).
    [SystemExit] is what [sys.exit] and [optparse] raise. *)
Inductive exn : Type :=
| ConfigError (msg : string)
| ReportError (msg : string)
| GSSError (msg : string)
| NoSectionError (msg : string)
| RuntimeError (msg : string)
| SystemExit (code : Z)
| OtherError (class msg : string).

(** [str(error)], as [utils.log.error(error)] renders it. *)
Definition exn_str (e : exn) : string :=
  match e with
  | ConfigError m | ReportError m | GSSError m | NoSectionError m
  | RuntimeError m | OtherError _ m => m
  | SystemExit c => pretty c
  end.

Definition Res (A : Type) : Type := (exn + A)%type.

Definition res_bind {A B : Type} (r : Res A) (k : A -> Res B) : Res B :=
  match r with
  | inl e => inl e
  | inr a => k a
  end.

Declare Scope res_scope.
Delimit Scope res_scope with res.
Notation "x <-? r ;; k" := (res_bind r (fun x => k))
  (at level 100, r at next level, right associativity) : res_scope.

(** ** Dates *)

Definition date : Type := Z.

Module Calendar.

(** The proleptic Gregorian calendar of [datetime.date]. *)

Definition is_leap (y : Z) : bool :=
  (y mod 4 =? 0) && (negb (y mod 100 =? 0) || (y mod 400 =? 0)).

Definition days_before_year (y : Z) : Z :=
  let p := y - 1 in p * 365 + p / 4 - p / 100 + p / 400.

Definition days_in_month (y m : Z) : Z :=
  if m =? 2 then (if is_leap y then 29 else 28)
  else if (m =? 4) || (m =? 6) || (m =? 9) || (m =? 11) then 30
  else 31.

Fixpoint days_before_month_upto (y : Z) (n : nat) : Z :=
  match n with
  | O => 0
  | S k => days_before_month_upto y k + days_in_month y (Z.of_nat n)
  end.

(** Days of year [y] before the first day of month [m]. *)
Definition days_before_month (y m : Z) : Z :=
  days_before_month_upto y (Z.to_nat (m - 1)).

(** [datetime.date(y, m, d)]: [ValueError] outside the calendar. *)
Definition ymd2ord (y m d : Z) : option date :=
  if (1 <=? y) && (y <=? 9999) && (1 <=? m) && (m <=? 12)
     && (1 <=? d) && (d <=? days_in_month y m)
  then Some (days_before_year y + days_before_month y m + d)
  else None.

(** The ordinal of a date known to be on the calendar. *)
Definition ord (y m d : Z) : date :=
  days_before_year y + days_before_month y m + d.

(** Year, month and day of an ordinal ([date.fromordinal]). *)
Definition ord2ymd (n0 : date) : Z * Z * Z :=
  let n := n0 - 1 in
  let n400 := n / 146097 in
  let n := n mod 146097 in
  let n100 := n / 36524 in
  let n := n mod 36524 in
  let n4 := n / 1461 in
  let n := n mod 1461 in
  let n1 := n / 365 in
  let n := n mod 365 in
  let year := n400 * 400 + 1 + n100 * 100 + n4 * 4 + n1 in
  if (n1 =? 4) || (n100 =? 4) then (year - 1, 12, 31)
  else
    let leapyear := (n1 =? 3) && (negb (n4 =? 24) || (n100 =? 3)) in
    let month := Z.shiftr (n + 50) 5 in
    let preceding :=
      days_before_month 1 month
      + (if (2 <? month) && leapyear then 1 else 0) in
    if n <? preceding then
      let month' := month - 1 in
      let preceding' :=
        preceding
        - (days_in_month 1 month'
           + (if (month' =? 2) && leapyear then 1 else 0)) in
      (year, month', n - preceding' + 1)
    else (year, month, n - preceding + 1).

(** Left padding with zeros, the [%0kd] of a non-negative number. *)
Fixpoint zeros (k : nat) : string :=
  match k with
  | O => ""
  | S k' => "0" +:+ zeros k'
  end.

Definition pad (k : nat) (z : Z) : string :=
  let s := pretty z in
  zeros (k - String.length s) +:+ s.

(** [str(d)] of a [datetime.date]: [YYYY-MM-DD]. *)
Definition isoformat (d : date) : string :=
  let '(y, m, dd) := ord2ymd d in
  pad 4 y +:+ "-" +:+ pad 2 m +:+ "-" +:+ pad 2 dd.

(** The ordinal of 9999-12-31, the last date ([date.max]). *)
Definition MAXORDINAL : date := 3652059.

(** [d + delta(days=1)] where [d] can be any date: past the last date
    the addition raises [OverflowError]. *)
Definition add_day (d : date) : Res date :=
  if d <? MAXORDINAL then inr (d + 1)
  else inl (OtherError "OverflowError" "date value out of range").

End Calendar.

(** ** Users, the plugin schema and the option values *)

(** [did.base.User(email=...)]: the identity built from one address. *)
Record User : Type := { email : string }.

(** One stat of a plugin group: its enable flag on the command line and the
    attribute ([dest]) the flag sets to [True]. *)
Record Stat : Type := { stat_flag : string; stat_dest : string }.

(** One plugin group ([sample_stats.stats] is a list of them). *)
Record StatsGroup : Type := {
  group_flag : string;
  group_dest : string;
  group_stats : list Stat
}.

(** What [parser.parse_args] returns as [opt]: one slot per option. A
    [store_true] slot holds [None] or [True], read as a boolean; the plugin
    slots are the set [v_flags] of the attributes that hold [True]. *)
Record Values : Type := {
  v_emails : list string;
  v_since : option string;
  v_until : option string;
  v_format : string;
  v_width : Z;
  v_brief : bool;
  v_verbose : bool;
  v_total : bool;
  v_merge : bool;
  v_debug : bool;
  v_flags : gset string
}.

(** [getattr(opt, dest)] on a plugin slot. *)
Definition getattr (v : Values) (dest : string) : bool :=
  bool_decide (dest ∈ v_flags v).

(** The same object when [parse] returns it: [emails] split, [since] and
    [until] replaced by [Date] objects (their [.date] here) and [all]
    added. *)
Record options : Type := {
  emails : list string;
  since : date;
  until : date;
  all : bool;
  format : string;
  width : Z;
  brief : bool;
  verbose : bool;
  total : bool;
  merge : bool;
  debug : bool;
  flags : gset string
}.

(** ** Output events and the state *)

(** What [utils.header] and [utils.item] are given: a literal or a user. *)
Inductive text : Type :=
| Str (s : string)
| OfUser (u : User).

(** Why [optparse] gives up ([parser.error]). *)
Inductive parse_error : Type :=
| NoSuchOption (o : string)
| AmbiguousOption (o : string) (candidates : list string)
| RequiresArgument (o : string)
| TakesNoValue (o : string)
| InvalidInteger (o : string) (value : string).

Inductive event : Type :=
| Print (s : string)                 (* print(...) *)
| Header (t : text)                  (* utils.header(t) *)
| Item (t : text) (level : nat)      (* utils.item(t, level, options=...) *)
| Info (s : string)                  (* utils.info(s) *)
| LogError (s : string)              (* utils.log.error(s) *)
| LogDebug (s : string)              (* utils.log.debug(s) *)
| LogDebugOptions (o : options)      (* utils.log.debug('options = ...') *)
| ParserUsage (why : parse_error)    (* usage and error of optparse *)
| ParserHelp                         (* the help text of optparse *)
| Collect (u : User)                 (* user_stats.check() is entered *)
| PluginOut (line : string).         (* a line a stats object writes *)

(** [arguments]: a string to be split, or a list of tokens. *)
Inductive argval : Type :=
| ArgString (s : string)
| ArgList (l : list string).

Record state : Type := {
  self_arguments : option argval;    (* Options.arguments *)
  log_level : Z;                     (* the level of utils.Logging *)
  out : list event                   (* everything emitted so far *)
}.

Definition M (A : Type) : Type := state -> Res A * state.

Definition ret {A : Type} (a : A) : M A := fun st => (inr a, st).

Definition raise {A : Type} (e : exn) : M A := fun st => (inl e, st).

Definition bind {A B : Type} (m : M A) (k : A -> M B) : M B :=
  fun st =>
    match m st with
    | (inl e, st') => (inl e, st')
    | (inr a, st') => k a st'
    end.

(** The three updates of the state. *)
Definition add_out (es : list event) (st : state) : state :=
  {| self_arguments := self_arguments st;
     log_level := log_level st;
     out := out st ++ es |}.

Definition with_level (l : Z) (st : state) : state :=
  {| self_arguments := self_arguments st;
     log_level := l;
     out := out st |}.

Definition with_arguments (a : option argval) (st : state) : state :=
  {| self_arguments := a;
     log_level := log_level st;
     out := out st |}.

Definition emit (e : event) : M unit :=
  fun st => (inr tt, add_out [e] st).

Definition emit_all (es : list event) : M unit :=
  fun st => (inr tt, add_out es st).

Definition set_log_level (l : Z) : M unit :=
  fun st => (inr tt, with_level l st).

Definition set_arguments (a : option argval) : M unit :=
  fun st => (inr tt, with_arguments a st).

Definition get_arguments : M (option argval) :=
  fun st => (inr (self_arguments st), st).

Definition lift {A : Type} (r : Res A) : M A := fun st => (r, st).

Definition when (b : bool) (m : M unit) : M unit := if b then m else ret tt.

(** A call into a stats object: the lines it writes, then its result. *)
Definition call {A : Type} (c : list string * Res A) : M A :=
  bind (emit_all (map PluginOut (fst c))) (fun _ => lift (snd c)).

Declare Scope m_scope.
Delimit Scope m_scope with m.
Notation "x <- m ;; k" := (bind m (fun x => k))
  (at level 100, m at next level, right associativity) : m_scope.
Notation "m ;; k" := (bind m (fun _ => k))
  (at level 100, right associativity) : m_scope.

(** ** Collaborators *)

(** The value of [did.base.Config().email]: a string or a list. *)
Inductive email_value : Type :=
| EmailStr (s : string)
| EmailList (l : list string).

Record Collaborators : Type := {
  (* did.base.Date *)
  Date_new : string -> Res date;     (* Date(text).date, or what it raises *)
  Date_str : date -> string;         (* str() of a Date object *)
  this_week : date * date;
  last_week : date * date;
  this_month : date * date;
  last_month : date * date;
  this_quarter : date * date;
  last_quarter : date * date;
  this_year : date * date;
  last_year : date * date;
  (* did.base.Config and did.base.CONFIG *)
  Config_email : Res email_value;
  Config_width : Z;
  CONFIG : string;
  (* did.utils *)
  LOG_DEBUG : Z;
  (* the rest of the environment *)
  getuser : string;                  (* getpass.getuser() *)
  sys_argv : list string;            (* sys.argv[1:] *)
  check_int : string -> option Z;    (* the int converter of optparse *)
  (* did.stats.UserStats *)
  sample_stats : list StatsGroup;    (* UserStats().stats *)
  Stats : Type;
  UserStats_new : option User -> options -> Stats;
  check : Stats -> list string * Res Stats;
  merge_stats : Stats -> Stats -> list string * Res Stats;
  show : Stats -> list string * Res unit
}.

(** ** Strings *)

Module Text.

Definition is_comma (c : ascii) : bool := Ascii.eqb c ","%char.

(** The class [\s] on ASCII: space, tab, newline, vertical tab, form
    feed and carriage return. *)
Definition is_space (c : ascii) : bool :=
  let n := nat_of_ascii c in
  (Nat.eqb n 32 || (Nat.leb 9 n && Nat.leb n 13))%bool.

(** [re.compile(r"\s*,\s*").split(s)], the separator of line 104: a
    comma together with the whitespace on both of its sides. [cur] is
    the piece read so far, [ws] the whitespace after it that a comma may
    still claim, and [skipping] holds right after a comma. *)
Fixpoint split_go (s : string) (skipping : bool) (cur ws : string)
  : list string :=
  match s with
  | EmptyString => [cur +:+ ws]
  | String c s' =>
      if is_comma c then cur :: split_go s' true EmptyString EmptyString
      else if is_space c then
        if skipping then split_go s' true EmptyString EmptyString
        else split_go s' false cur (ws +:+ String c EmptyString)
      else split_go s' false (cur +:+ ws +:+ String c EmptyString)
             EmptyString
  end.

Definition re_split (s : string) : list string :=
  split_go s false EmptyString EmptyString.

(** [s.split()]: the maximal runs of non-whitespace characters. *)
Fixpoint words_go (s : string) (cur : string) : list string :=
  match s with
  | EmptyString => if String.eqb cur EmptyString then [] else [cur]
  | String c s' =>
      if is_space c then
        (if String.eqb cur EmptyString then [] else [cur])
        ++ words_go s' EmptyString
      else words_go s' (cur +:+ String c EmptyString)
  end.

Definition py_split (s : string) : list string := words_go s EmptyString.

(** [s.split("=", 1)] of a string that may hold no [=]. *)
Fixpoint split_eq (s : string) : string * option string :=
  match s with
  | EmptyString => (EmptyString, None)
  | String c s' =>
      if Ascii.eqb c "="%char then (EmptyString, Some s')
      else let '(a, b) := split_eq s' in (String c a, b)
  end.

(** [", ".join(l)]. *)
Fixpoint join (sep : string) (l : list string) : string :=
  match l with
  | [] => EmptyString
  | [a] => a
  | a :: l' => a +:+ sep +:+ join sep l'
  end.

(** No comma and no whitespace in [s]. *)
Fixpoint plain (s : string) : bool :=
  match s with
  | EmptyString => true
  | String c s' => negb (is_comma c) && negb (is_space c) && plain s'
  end.

Definition quote : string := String (ascii_of_nat 34) EmptyString.
Definition newline : string := String (ascii_of_nat 10) EmptyString.

End Text.

(** Modelled from the spec: [did.utils.split] is not under src/. It turns
    one string or a list of strings into the list of the pieces of every
    string, cut at the separator it is given (here the pattern of line
    104), in the order met and with repetitions kept. *)
Definition utils_split (values : email_value) : list string :=
  match values with
  | EmailStr s => Text.re_split s
  | EmailList l => l ≫= Text.re_split
  end.

(** ** Options.time_period (lines 128-165) *)

Definition time_period (C : Collaborators) (arg : list string)
  : Res (date * date * string) :=
  if bool_decide ("today" ∈ arg) then
    (since <-? Date_new C "today" ;;
     until <-? Date_new C "today" ;;
     inr (since, until + 1, "today"))%res
  else if bool_decide ("year" ∈ arg) then
    if bool_decide ("last" ∈ arg)
    then inr (last_year C, "the last fiscal year")
    else inr (this_year C, "this fiscal year")
  else if bool_decide ("quarter" ∈ arg) then
    if bool_decide ("last" ∈ arg)
    then inr (last_quarter C, "the last quarter")
    else inr (this_quarter C, "this quarter")
  else if bool_decide ("month" ∈ arg) then
    if bool_decide ("last" ∈ arg)
    then inr (last_month C, "the last month")
    else inr (this_month C, "this month")
  else
    if bool_decide ("last" ∈ arg)
    then inr (last_week C, "the last week")
    else inr (this_week C, "this week").

(** ** The option parser built by Options.__init__ (lines 32-80) *)

Module Optparse.

(** The options of the parser, by what they do to [opt]. *)
Inductive optkind : Type :=
| KHelp | KEmail | KSince | KUntil | KFormat | KWidth
| KBrief | KVerbose | KTotal | KMerge | KDebug
| KPlugin (dest : string).

Definition takes_value (k : optkind) : bool :=
  match k with
  | KEmail | KSince | KUntil | KFormat | KWidth => true
  | _ => false
  end.

(** Modelled from the spec: [UserStats.add_option] is not under src/.
    Every stat and every group contributes one boolean enable flag. *)
Definition plugin_options (groups : list StatsGroup)
  : list (string * optkind) :=
  g ← groups;
  map (fun s => (stat_flag s, KPlugin (stat_dest s))) (group_stats g)
  ++ [(group_flag g, KPlugin (group_dest g))].

(** The long options in the order [__init__] registers them. *)
Definition table (C : Collaborators) : list (string * optkind) :=
  [("--help", KHelp); ("--email", KEmail); ("--since", KSince);
   ("--until", KUntil)]
  ++ plugin_options (sample_stats C)
  ++ [("--format", KFormat); ("--width", KWidth); ("--brief", KBrief);
      ("--verbose", KVerbose); ("--total", KTotal); ("--merge", KMerge);
      ("--debug", KDebug)].

Fixpoint assoc (o : string) (t : list (string * optkind))
  : option optkind :=
  match t with
  | [] => None
  | (o', k) :: t' => if String.eqb o o' then Some k else assoc o t'
  end.

(** An exact name, or else the one option it abbreviates. *)
Definition match_long_opt (C : Collaborators) (o : string)
  : parse_error + (string * optkind) :=
  match assoc o (table C) with
  | Some k => inr (o, k)
  | None =>
      match remove_dups
              (List.filter (String.prefix o) (map fst (table C))) with
      | [] => inl (NoSuchOption o)
      | [w] =>
          match assoc w (table C) with
          | Some k => inr (w, k)
          | None => inl (NoSuchOption o)
          end
      | ws => inl (AmbiguousOption o ws)
      end
  end.

(** The values before any option is read, at the first [parse_args] of
    the parser (the one [main] makes): the list of [--email] is still
    the empty list of line 42. *)
Definition defaults (C : Collaborators) : Values :=
  {| v_emails := []; v_since := None; v_until := None;
     v_format := "text"; v_width := Config_width C;
     v_brief := false; v_verbose := false; v_total := false;
     v_merge := false; v_debug := false; v_flags := ∅ |}.

Definition set_emails (x : list string) (v : Values) : Values :=
  {| v_emails := x; v_since := v_since v; v_until := v_until v;
     v_format := v_format v; v_width := v_width v; v_brief := v_brief v;
     v_verbose := v_verbose v; v_total := v_total v;
     v_merge := v_merge v; v_debug := v_debug v; v_flags := v_flags v |}.

Definition set_since (x : option string) (v : Values) : Values :=
  {| v_emails := v_emails v; v_since := x; v_until := v_until v;
     v_format := v_format v; v_width := v_width v; v_brief := v_brief v;
     v_verbose := v_verbose v; v_total := v_total v;
     v_merge := v_merge v; v_debug := v_debug v; v_flags := v_flags v |}.

Definition set_until (x : option string) (v : Values) : Values :=
  {| v_emails := v_emails v; v_since := v_since v; v_until := x;
     v_format := v_format v; v_width := v_width v; v_brief := v_brief v;
     v_verbose := v_verbose v; v_total := v_total v;
     v_merge := v_merge v; v_debug := v_debug v; v_flags := v_flags v |}.

Definition set_format (x : string) (v : Values) : Values :=
  {| v_emails := v_emails v; v_since := v_since v; v_until := v_until v;
     v_format := x; v_width := v_width v; v_brief := v_brief v;
     v_verbose := v_verbose v; v_total := v_total v;
     v_merge := v_merge v; v_debug := v_debug v; v_flags := v_flags v |}.

Definition set_width (x : Z) (v : Values) : Values :=
  {| v_emails := v_emails v; v_since := v_since v; v_until := v_until v;
     v_format := v_format v; v_width := x; v_brief := v_brief v;
     v_verbose := v_verbose v; v_total := v_total v;
     v_merge := v_merge v; v_debug := v_debug v; v_flags := v_flags v |}.

Definition set_bools (b vb t m d : bool) (v : Values) : Values :=
  {| v_emails := v_emails v; v_since := v_since v; v_until := v_until v;
     v_format := v_format v; v_width := v_width v; v_brief := b;
     v_verbose := vb; v_total := t; v_merge := m; v_debug := d;
     v_flags := v_flags v |}.

Definition set_flags (x : gset string) (v : Values) : Values :=
  {| v_emails := v_emails v; v_since := v_since v; v_until := v_until v;
     v_format := v_format v; v_width := v_width v; v_brief := v_brief v;
     v_verbose := v_verbose v; v_total := v_total v;
     v_merge := v_merge v; v_debug := v_debug v; v_flags := x |}.

(** The action of a flag ([store_true]). *)
Definition process_flag (k : optkind) (v : Values) : option Values :=
  match k with
  | KBrief =>
      Some (set_bools true (v_verbose v) (v_total v) (v_merge v)
              (v_debug v) v)
  | KVerbose =>
      Some (set_bools (v_brief v) true (v_total v) (v_merge v)
              (v_debug v) v)
  | KTotal =>
      Some (set_bools (v_brief v) (v_verbose v) true (v_merge v)
              (v_debug v) v)
  | KMerge =>
      Some (set_bools (v_brief v) (v_verbose v) (v_total v) true
              (v_debug v) v)
  | KDebug =>
      Some (set_bools (v_brief v) (v_verbose v) (v_total v) (v_merge v)
              true v)
  | KPlugin dest => Some (set_flags ({[dest]} ∪ v_flags v) v)
  | _ => None
  end.

(** The action of an option with a value ([store], [append]). *)
Definition process_value (C : Collaborators) (k : optkind) (o x : string)
    (v : Values) : parse_error + Values :=
  match k with
  | KEmail => inr (set_emails (v_emails v ++ [x]) v)
  | KSince => inr (set_since (Some x) v)
  | KUntil => inr (set_until (Some x) v)
  | KFormat => inr (set_format x v)
  | KWidth =>
      match check_int C x with
      | Some n => inr (set_width n v)
      | None => inl (InvalidInteger o x)
      end
  | _ => inr v
  end.

Inductive parsed : Type :=
| Parsed (v : Values) (args : list string)
| Helped
| Failed (why : parse_error).

(** [OptionParser._process_args]: the tokens left to right; [largs] are
    the positional arguments met so far. *)
Fixpoint process_args (C : Collaborators) (rargs largs : list string)
    (v : Values) : parsed :=
  match rargs with
  | [] => Parsed v largs
  | a :: rest =>
      if String.eqb a "--" then Parsed v (largs ++ rest)
      else if String.prefix "--" a then
        let '(name, explicit) := Text.split_eq a in
        match match_long_opt C name with
        | inl why => Failed why
        | inr (o, KHelp) =>
            match explicit with
            | Some _ => Failed (TakesNoValue o)
            | None => Helped
            end
        | inr (o, k) =>
            if takes_value k then
              match explicit with
              | Some x =>
                  match process_value C k o x v with
                  | inl why => Failed why
                  | inr v' => process_args C rest largs v'
                  end
              | None =>
                  match rest with
                  | [] => Failed (RequiresArgument o)
                  | x :: rest' =>
                      match process_value C k o x v with
                      | inl why => Failed why
                      | inr v' => process_args C rest' largs v'
                      end
                  end
              end
            else
              match explicit with
              | Some _ => Failed (TakesNoValue o)
              | None =>
                  match process_flag k v with
                  | Some v' => process_args C rest largs v'
                  | None => Failed (NoSuchOption o)
                  end
              end
        end
      else
        match a with
        | String "-" (String c _) =>
            if Ascii.eqb c "h"%char then Helped
            else Failed (NoSuchOption (String "-" (String c EmptyString)))
        | _ => process_args C rest (largs ++ [a]) v
        end
  end.

(** [parser.parse_args(argv)]: the values and the positional arguments,
    or the exit of [optparse] after its help or its usage message. *)
Definition parse_args (C : Collaborators) (argv : list string)
  : M (Values * list string) :=
  match process_args C argv [] (defaults C) with
  | Parsed v args => ret (v, args)
  | Helped => (emit ParserHelp ;; raise (SystemExit 0))%m
  | Failed why => (emit (ParserUsage why) ;; raise (SystemExit 2))%m
  end.

End Optparse.

(** ** Options.parse (lines 82-126) *)

(** [x or d] on an optional string: [None] and the empty string are
    false. *)
Definition or_default (x : option string) (d : string) : string :=
  match x with
  | Some (String c s) => String c s
  | _ => d
  end.

(** Lines 95-99: one entry per stat of every group, [any] of them. *)
Definition enable_entries (groups : list StatsGroup) (opt : Values)
  : list bool :=
  g ← groups;
  s ← group_stats g;
  [getattr opt (stat_dest s) || getattr opt (group_dest g)].

Definition compute_all (groups : list StatsGroup) (opt : Values) : bool :=
  negb (existsb (fun b => b) (enable_entries groups opt)).

(** Lines 101-104. *)
Definition resolve_emails (C : Collaborators) (opt : Values)
  : Res (list string) :=
  (e <-? match v_emails opt with
         | [] => Config_email C
         | _ :: _ => inr (EmailList (v_emails opt))
         end ;;
   inr (utils_split e))%res.

(** Whether the text of [--until] is the one [Date] is given on line
    111: it is there and not empty. *)
Definition until_given (opt : Values) : bool :=
  match v_until opt with
  | Some (String _ _) => true
  | _ => false
  end.

(** Line 113, [opt.until.date += delta(days=1)]: the date of a text of
    the command line can be the last of the calendar, and the addition
    then raises; the current date has a next day. *)
Definition until_next_day (opt : Values) (u : date) : Res date :=
  if until_given opt then Calendar.add_day u else inr (u + 1).

(** Lines 106-114: the dates of [since] and [until] and the label. *)
Definition resolve_range (C : Collaborators) (opt : Values)
    (arg : list string) : Res (date * date * string) :=
  match v_since opt, v_until opt with
  | None, None => time_period C arg
  | _, _ =>
      (s <-? Date_new C (or_default (v_since opt) "1993-01-01") ;;
       u <-? Date_new C (or_default (v_until opt) "today") ;;
       u' <-? until_next_day opt u ;;
       inr (s, u', "given date range"))%res
  end.

Definition range_message (C : Collaborators) (s u : date) : string :=
  "Invalid date range (" +:+ Date_str C s +:+ " to "
  +:+ Calendar.isoformat (u - 1) +:+ ")".

(** Lines 115-119. *)
Definition validate (C : Collaborators) (s u : date) : Res unit :=
  if s <? u then inr tt else inl (RuntimeError (range_message C s u)).

Definition banner (C : Collaborators) (period : string) (s u : date)
  : string :=
  "Status report for " +:+ period +:+ " (" +:+ Date_str C s +:+ " to "
  +:+ Calendar.isoformat (u - 1) +:+ ").".

Definition resolved (opt : Values) (all_ : bool) (emails_ : list string)
    (s u : date) : options :=
  {| emails := emails_; since := s; until := u; all := all_;
     format := v_format opt; width := v_width opt; brief := v_brief opt;
     verbose := v_verbose opt; total := v_total opt; merge := v_merge opt;
     debug := v_debug opt; flags := v_flags opt |}.

(** Lines 91-126: what [parse] does with the parsed [opt] and [arg]. *)
Definition parse_options (C : Collaborators) (opt : Values)
    (arg : list string) : M options :=
  (when (v_debug opt) (set_log_level (LOG_DEBUG C)) ;;
   let all_ := compute_all (sample_stats C) opt in
   emails_ <- lift (resolve_emails C opt) ;;
   r <- lift (resolve_range C opt arg) ;;
   let '(s, u, period) := r in
   lift (validate C s u) ;;
   emit (Print (banner C period s u)) ;;
   let o := resolved opt all_ emails_ s u in
   emit (LogDebug "Gathered options:") ;;
   emit (LogDebugOptions o) ;;
   ret o)%m.

(** Lines 84-89: the tokens [parse_args] is given. *)
Definition stored_arguments (old new : option argval) : option argval :=
  match (match new with Some a => Some a | None => old end) with
  | Some (ArgString s) => Some (ArgList (Text.py_split s))
  | a => a
  end.

Definition tokens (C : Collaborators) (a : option argval) : list string :=
  match a with
  | Some (ArgList l) => l
  | Some (ArgString s) => Text.py_split s
  | None => sys_argv C
  end.

Definition parse (C : Collaborators) (arguments : option argval)
  : M options :=
  (old <- get_arguments ;;
   set_arguments (stored_arguments old arguments) ;;
   a <- get_arguments ;;
   r <- Optparse.parse_args C (tokens C a) ;;
   parse_options C (fst r) (snd r))%m.

(** [Options(arguments)], lines 32-80: the parser is [Optparse.table];
    the object keeps [arguments]. *)
Definition Options_init (arguments : option argval) : M unit :=
  (set_arguments arguments ;;
   emit (LogDebug "Loading Sample Stats group to build Options"))%m.

(** ** main (lines 172-236) *)

Section Main.

Variable C : Collaborators.

(** Lines 200-208: the loop over the users. *)
Fixpoint check_users (o : options) (users : list User)
    (team : Stats C) (gathered : list (Stats C))
  : M (list (Stats C) * Stats C) :=
  match users with
  | [] => ret (gathered, team)
  | user :: rest =>
      ((if merge o then emit (Item (OfUser user) 1)
        else emit (Header (OfUser user))) ;;
       let user_stats := UserStats_new C (Some user) o in
       emit (Collect user) ;;
       user_stats' <- call (check C user_stats) ;;
       team' <- call (merge_stats C team user_stats') ;;
       check_users o rest team' (gathered ++ [user_stats']))%m
  end.

(** Lines 186-217: from the parsed options to the gathered stats. The
    count of users is an item of level 0, the default of [utils.item]. *)
Definition gather (o : options) : M (list (Stats C) * Stats C) :=
  let users := map (fun e => {| email := e |}) (emails o) in
  match users with
  | [] => raise (ConfigError "No user email provided")
  | _ :: _ =>
      (let team_stats := UserStats_new C None o in
       when (merge o)
         (emit (Header (Str "Total Report")) ;;
          emit (Item (Str ("Users: " +:+ pretty (length users))) 0)) ;;
       r <- check_users o users team_stats [] ;;
       when (merge o || total o)
         (when (total o) (emit (Header (Str "Total Report"))) ;;
          call (show C (snd r))) ;;
       ret r)%m
  end.

(** The body of the [try] (lines 184-217). *)
Definition main_body (arguments : option argval)
  : M (list (Stats C) * Stats C) :=
  (Options_init None ;;
   o <- parse C arguments ;;
   gather o)%m.

(** The [except] clauses (lines 219-236); [sys.exit(n)] raises
    [SystemExit n], and an exception of no listed class goes on. *)
Definition handler {A : Type} (e : exn) : M A :=
  match e with
  | ConfigError _ | ReportError _ =>
      (emit (LogError (exn_str e)) ;; raise (SystemExit 1))%m
  | GSSError _ =>
      (emit (LogError "Kerberos authentication failed. Try kinit.") ;;
       raise (SystemExit 2))%m
  | NoSectionError _ =>
      (emit (LogError (exn_str e)) ;;
       emit (LogError
         "No email provided on the command line or in the config file") ;;
       emit (Info ("Create at least a minimum config file " +:+ CONFIG C
                    +:+ ":")) ;;
       emit (Info ("[general]" +:+ Text.newline +:+ "email = "
                    +:+ Text.quote +:+ "My Name" +:+ Text.quote +:+ " <"
                    +:+ getuser C +:+ "@domain.com>")) ;;
       raise (SystemExit 3))%m
  | _ => raise e
  end.

Definition main (arguments : option argval)
  : M (list (Stats C) * Stats C) :=
  fun st =>
    match main_body arguments st with
    | (inr r, st') => (inr r, st')
    | (inl e, st') => handler e st'
    end.

End Main.

(** ** Observations on a run *)

(** The state after lines 91-93. *)
Definition after_debug (C : Collaborators) (opt : Values) (st : state)
  : state :=
  if v_debug opt then with_level (LOG_DEBUG C) st else st.

(** What [parse] emits once the range is valid (lines 120-125). *)
Definition parse_events (C : Collaborators) (period : string) (o : options)
  : list event :=
  [Print (banner C period (since o) (until o));
   LogDebug "Gathered options:";
   LogDebugOptions o].

(** The state after [Options()] (lines 32-80). *)
Definition after_init (st : state) : state :=
  add_out [LogDebug "Loading Sample Stats group to build Options"]
    (with_arguments None st).

(** The [Total Report] header. *)
Definition is_total_header (e : event) : bool :=
  match e with
  | Header (Str s) => String.eqb s "Total Report"
  | _ => false
  end.

Definition count_total_headers (es : list event) : nat :=
  length (List.filter is_total_header es).

(** The events of the report itself: what goes to standard output. *)
Definition is_report (e : event) : bool :=
  match e with
  | Print _ | Header _ | Item _ _ | PluginOut _ => true
  | _ => false
  end.

(** The messages of [optparse]. *)
Definition is_parser_message (e : event) : bool :=
  match e with
  | ParserUsage _ | ParserHelp => true
  | _ => false
  end.

(** The events of one user in the loop of [main]. *)
Definition is_user_detail (e : event) : bool :=
  match e with
  | Header (OfUser _) | Item (OfUser _) _ | Collect _ | PluginOut _ => true
  | _ => false
  end.

(** ** A concrete set of collaborators *)

Module Reference.

(** A non-empty string of decimal digits as a number. *)
Fixpoint digits_go (s : string) (acc : Z) : option Z :=
  match s with
  | EmptyString => Some acc
  | String c s' =>
      let n := nat_of_ascii c in
      if (Nat.leb 48 n && Nat.leb n 57)%bool
      then digits_go s' (10 * acc + Z.of_nat (n - 48))
      else None
  end.

Definition digits (s : string) : option Z :=
  match s with
  | EmptyString => None
  | _ => digits_go s 0
  end.

(** The pieces of [s] between the characters [sep]. *)
Fixpoint split_on (sep : ascii) (s : string) (cur : string)
  : list string :=
  match s with
  | EmptyString => [cur]
  | String c s' =>
      if Ascii.eqb c sep then cur :: split_on sep s' EmptyString
      else split_on sep s' (cur +:+ String c EmptyString)
  end.

(** The day the examples run on: 2024-03-15, a Friday. *)
Definition today : date := Calendar.ord 2024 3 15.

(** Modelled from the spec: [did.base.Date] is not under src/. The text
    [today] is the current date, every other text is read as
    year-month-day and refused when it is not a date. *)
Definition date_of_text (s : string) : Res date :=
  if String.eqb s "today" then inr today
  else
    match map digits (split_on "-" s EmptyString) with
    | [Some y; Some m; Some d] =>
        match Calendar.ymd2ord y m d with
        | Some n => inr n
        | None => inl (OtherError "ValueError" "date out of range")
        end
    | _ => inl (OtherError "ValueError" "invalid date")
    end.

(** Modelled from the spec: [did.stats.UserStats] is not under src/. A
    session is its user and the lines gathered for it; collecting for
    the address [bad] fails with [failure]. *)
Definition session : Type := option User * list string.

Definition collect (bad : option (string * exn)) (s : session)
  : list string * Res session :=
  match fst s with
  | None => ([], inr s)
  | Some u =>
      match bad with
      | Some (b, e) =>
          if String.eqb (email u) b then ([], inl e)
          else (["work of " +:+ email u],
                inr (fst s, snd s ++ ["work of " +:+ email u]))
      | None =>
          (["work of " +:+ email u],
           inr (fst s, snd s ++ ["work of " +:+ email u]))
      end
  end.

Definition merge_into (team other : session) : list string * Res session :=
  ([], inr (fst team, snd team ++ snd other)).

Definition render (s : session) : list string * Res unit := (snd s, inr tt).

(** The collaborators of a run: the configured addresses, the plugin
    schema and the address whose collection fails, if any. *)
Definition collaborators (cfg : Res email_value)
    (groups : list StatsGroup) (bad : option (string * exn))
  : Collaborators :=
  {| Date_new := date_of_text;
     Date_str := Calendar.isoformat;
     this_week := (Calendar.ord 2024 3 11, Calendar.ord 2024 3 18);
     last_week := (Calendar.ord 2024 3 4, Calendar.ord 2024 3 11);
     this_month := (Calendar.ord 2024 3 1, Calendar.ord 2024 4 1);
     last_month := (Calendar.ord 2024 2 1, Calendar.ord 2024 3 1);
     this_quarter := (Calendar.ord 2024 1 1, Calendar.ord 2024 4 1);
     last_quarter := (Calendar.ord 2023 10 1, Calendar.ord 2024 1 1);
     this_year := (Calendar.ord 2024 1 1, Calendar.ord 2025 1 1);
     last_year := (Calendar.ord 2023 1 1, Calendar.ord 2024 1 1);
     Config_email := cfg;
     Config_width := 79;
     CONFIG := "~/.did/config";
     LOG_DEBUG := 10;
     getuser := "me";
     sys_argv := [];
     check_int := digits;
     sample_stats := groups;
     Stats := session;
     UserStats_new := fun u _ => (u, []);
     check := collect bad;
     merge_stats := merge_into;
     show := render |}.

(** One group of two stats, and the usual configuration. *)
Definition git : StatsGroup :=
  {| group_flag := "--git"; group_dest := "git";
     group_stats :=
       [ {| stat_flag := "--git-commits"; stat_dest := "git_commits" |};
         {| stat_flag := "--git-merges"; stat_dest := "git_merges" |} ] |}.

Definition C0 : Collaborators :=
  collaborators (inr (EmailStr "me@example.com")) [git] None.

(** A group that has no stat of its own, before the git group. *)
Definition header : StatsGroup :=
  {| group_flag := "--header"; group_dest := "header";
     group_stats := [] |}.

Definition C_header : Collaborators :=
  collaborators (inr (EmailStr "me@example.com")) [header; git] None.

(** No address in the configuration. *)
Definition C_nobody : Collaborators :=
  collaborators (inr (EmailList [])) [git] None.

(** A configuration file without its [general] section. *)
Definition C_unconfigured : Collaborators :=
  collaborators (inl (NoSectionError "No section: 'general'")) [git] None.

(** The credentials for the second address are refused. *)
Definition C_denied : Collaborators :=
  collaborators (inr (EmailStr "a@x.com, b@y.com")) [git]
    (Some ("b@y.com", GSSError "No credentials cache found")).

(** The state before the first call: nothing stored, nothing emitted,
    the logging level at 20. *)
Definition st0 : state :=
  {| self_arguments := None; log_level := 20; out := [] |}.

(** The options of a merged report for two addresses on this day. *)
Definition o_merge : options :=
  resolved
    (Optparse.set_bools false false false true false (Optparse.defaults C0))
    true ["a@x.com"; "b@y.com"] today (today + 1).

(** The options of a plain report for the same addresses. *)
Definition o_plain : options :=
  resolved (Optparse.defaults C0) true ["a@x.com"; "b@y.com"] today
    (today + 1).

(** What [parse] returns for [--merge] when nobody is configured. *)
Definition nobody_parsed : options * state :=
  match parse C_nobody (Some (ArgString "--merge")) (after_init st0) with
  | (inr o, st1) => (o, st1)
  | (inl _, st1) =>
      (resolved (Optparse.defaults C_nobody) true [] 0 0, st1)
  end.

End Reference.

(** ** The period table *)

(** The units of the resolver other than [today], as a table: how a unit is
    chosen among the tokens, its token, the name its label uses and its
    current and previous instance. [time_period] is compared with it. *)
Module Period.

Inductive unit_ : Type := Year | Quarter | Month | Week.

Definition select (arg : list string) : unit_ :=
  if bool_decide ("year" ∈ arg) then Year
  else if bool_decide ("quarter" ∈ arg) then Quarter
  else if bool_decide ("month" ∈ arg) then Month
  else Week.

Definition token (u : unit_) : string :=
  match u with
  | Year => "year"
  | Quarter => "quarter"
  | Month => "month"
  | Week => "week"
  end.

Definition name (u : unit_) : string :=
  match u with
  | Year => "fiscal year"
  | _ => token u
  end.

Definition current (C : Collaborators) (u : unit_) : date * date :=
  match u with
  | Year => this_year C
  | Quarter => this_quarter C
  | Month => this_month C
  | Week => this_week C
  end.

Definition previous (C : Collaborators) (u : unit_) : date * date :=
  match u with
  | Year => last_year C
  | Quarter => last_quarter C
  | Month => last_month C
  | Week => last_week C
  end.

Definition label (last : bool) (u : unit_) : string :=
  (if last then "the last " else "this ") +:+ name u.

End Period.

(** ** Further observations *)

(** The tokens [time_period] looks for. *)
Definition keywords : list string :=
  ["today"; "year"; "quarter"; "month"; "last"].

(** No whitespace in [s]. *)
Fixpoint no_space (s : string) : bool :=
  match s with
  | EmptyString => true
  | String c s' => negb (Text.is_space c) && no_space s'
  end.

(** A token as [s.split()] gives them: not empty, no whitespace. *)
Definition word (s : string) : bool :=
  negb (String.eqb s EmptyString) && no_space s.

(** A token the option parser takes as a positional argument wherever it
    stands: it does not start with a dash, or it is the dash alone. *)
Definition positional (a : string) : bool :=
  match a with
  | String "-" (String _ _) => false
  | _ => true
  end.

(** The line that opens the part of a user (lines 201-204). *)
Definition user_line (o : options) (u : User) : event :=
  if merge o then Item (OfUser u) 1 else Header (OfUser u).

Definition is_user_line (e : event) : bool :=
  match e with
  | Header (OfUser _) | Item (OfUser _) _ => true
  | _ => false
  end.

Definition is_collect (e : event) : bool :=
  match e with
  | Collect _ => true
  | _ => false
  end.

(** [team.merge(s)] for every [s] of a list, in its order. *)
Fixpoint merge_all (C : Collaborators) (team : Stats C)
    (l : list (Stats C)) : Res (Stats C) :=
  match l with
  | [] => inr team
  | s :: l' =>
      match snd (merge_stats C team s) with
      | inl e => inl e
      | inr team' => merge_all C team' l'
      end
  end.

(** [s] is what [check] leaves of the fresh session of the address [e]. *)
Definition checked (C : Collaborators) (o : options) (e : string)
    (s : Stats C) : Prop :=
  snd (check C (UserStats_new C (Some {| email := e |}) o)) = inr s.

(** What [main] emits after the loop (lines 210-214). *)
Definition closing_events (C : Collaborators) (o : options)
    (team : Stats C) : list event :=
  if merge o || total o then
    (if total o then [Header (Str "Total Report")] else [])
    ++ map PluginOut (fst (show C team))
  else [].

(** What [main] emits before the loop (lines 195-197). *)
Definition opening_events (o : options) : list event :=
  if merge o then
    [Header (Str "Total Report");
     Item (Str ("Users: " +:+ pretty (length (emails o)))) 0]
  else [].

(** * Properties *)

(** A closed decidable fact, by evaluation. *)
Ltac by_decide :=
  match goal with
  | |- ?P => apply (@bool_decide_unpack P _); vm_compute; exact I
  end.

(** ** The period resolver *)

(** C1, as amended. For every list of tokens: with [today] among them the
    result is the window from today to today plus one day, labelled
    [today], whether or not [last] is present; otherwise the unit is the
    first of year, quarter, month that is among the tokens and else week,
    with [last] the result is the previous instance of the unit and the
    label [the last <name>], without it the current instance and
    [this <name>], where the name of the year is [fiscal year] and the
    name of every other unit is its token. *)
Theorem time_period_priority (C : Collaborators) (arg : list string) :
  (forall t, "today" ∈ arg -> Date_new C "today" = inr t ->
     time_period C arg = inr (t, t + 1, "today")) /\
  ("today" ∉ arg -> "last" ∈ arg ->
     time_period C arg
     = inr (Period.previous C (Period.select arg),
            Period.label true (Period.select arg))) /\
  ("today" ∉ arg -> "last" ∉ arg ->
     time_period C arg
     = inr (Period.current C (Period.select arg),
            Period.label false (Period.select arg))).
Proof.
  unfold time_period, Period.select.
  split; [| split].
  - intros t Hin Ht. rewrite bool_decide_eq_true_2 by exact Hin.
    rewrite Ht. reflexivity.
  - intros Hno Hlast. rewrite bool_decide_eq_false_2 by exact Hno.
    rewrite (bool_decide_eq_true_2 _ Hlast).
    repeat case_bool_decide; reflexivity.
  - intros Hno Hlast. rewrite bool_decide_eq_false_2 by exact Hno.
    rewrite (bool_decide_eq_false_2 _ Hlast).
    repeat case_bool_decide; reflexivity.
Qed.

Lemma time_period_priority_witness :
  time_period Reference.C0 ["last"; "today"; "year"]
  = inr (Reference.today, Reference.today + 1, "today")
  /\ time_period Reference.C0 ["last"; "month"; "quarter"]
     = inr (last_quarter Reference.C0, "the last quarter")
  /\ time_period Reference.C0 ["month"; "week"]
     = inr (this_month Reference.C0, "this month").
Proof.
  pose proof (time_period_priority Reference.C0 ["last"; "today"; "year"])
    as (H1 & _ & _).
  pose proof (time_period_priority Reference.C0 ["last"; "month"; "quarter"])
    as (_ & H2 & _).
  pose proof (time_period_priority Reference.C0 ["month"; "week"])
    as (_ & _ & H3).
  split; [| split].
  - apply H1; [by_decide | reflexivity].
  - apply H2; by_decide.
  - apply H3; by_decide.
Defined.

(** C1, as stated, fails for the year: the label of the current year is
    not [this year]. *)
Lemma time_period_year_label_cex :
  exists r, time_period Reference.C0 ["year"] = inr r
            /\ r.2 <> "this " +:+ Period.token Period.Year.
Proof.
  exists (this_year Reference.C0, "this fiscal year").
  split; [reflexivity | discriminate].
Qed.

(** ** Running [parse] *)

Lemma add_out_add_out (a b : list event) (st : state) :
  add_out b (add_out a st) = add_out (a ++ b) st.
Proof. unfold add_out; simpl. rewrite <- app_assoc. reflexivity. Qed.

Lemma out_after_debug (C : Collaborators) (opt : Values) (st : state) :
  out (after_debug C opt st) = out st.
Proof. unfold after_debug. destruct (v_debug opt); reflexivity. Qed.

Lemma arguments_after_debug (C : Collaborators) (opt : Values) (st : state) :
  self_arguments (after_debug C opt st) = self_arguments st.
Proof. unfold after_debug. destruct (v_debug opt); reflexivity. Qed.

Lemma level_after_debug (C : Collaborators) (opt : Values) (st : state) :
  log_level (after_debug C opt st)
  = if v_debug opt then LOG_DEBUG C else log_level st.
Proof. unfold after_debug. destruct (v_debug opt); reflexivity. Qed.

(** The whole of lines 91-126 in one equation. *)
Lemma parse_options_run (C : Collaborators) (opt : Values)
    (arg : list string) (st : state) :
  parse_options C opt arg st =
  match resolve_emails C opt with
  | inl e => (inl e, after_debug C opt st)
  | inr em =>
      match resolve_range C opt arg with
      | inl e => (inl e, after_debug C opt st)
      | inr (s, u, p) =>
          if s <? u then
            let o := resolved opt (compute_all (sample_stats C) opt) em s u in
            (inr o, add_out (parse_events C p o) (after_debug C opt st))
          else
            (inl (RuntimeError (range_message C s u)), after_debug C opt st)
      end
  end.
Proof.
  unfold parse_options, after_debug, bind, when, lift, validate.
  destruct (v_debug opt); simpl;
    (destruct (resolve_emails C opt) as [e | em]; [reflexivity |]);
    (destruct (resolve_range C opt arg) as [e | [[s u] p]];
       [reflexivity |]);
    (destruct (s <? u); [| reflexivity]);
    unfold emit, ret; rewrite !add_out_add_out; reflexivity.
Qed.

(** Lines 84-89 and the call of the parser in one equation. *)
Lemma parse_run (C : Collaborators) (arguments : option argval)
    (st : state) :
  parse C arguments st =
  let a := stored_arguments (self_arguments st) arguments in
  let st1 := with_arguments a st in
  match Optparse.process_args C (tokens C a) [] (Optparse.defaults C) with
  | Optparse.Parsed v args => parse_options C v args st1
  | Optparse.Helped => (inl (SystemExit 0), add_out [ParserHelp] st1)
  | Optparse.Failed why =>
      (inl (SystemExit 2), add_out [ParserUsage why] st1)
  end.
Proof.
  unfold parse, bind, get_arguments, set_arguments, Optparse.parse_args.
  simpl.
  destruct (Optparse.process_args C _ [] (Optparse.defaults C));
    reflexivity.
Qed.

(** ** The date range of [parse] *)

(** The branch of lines 110-114 in one equation. *)
Lemma resolve_range_given (C : Collaborators) (opt : Values)
    (arg : list string) (s u : date) :
  v_since opt <> None \/ v_until opt <> None ->
  Date_new C (or_default (v_since opt) "1993-01-01") = inr s ->
  Date_new C (or_default (v_until opt) "today") = inr u ->
  resolve_range C opt arg
  = res_bind (until_next_day opt u)
      (fun u' => inr (s, u', "given date range")).
Proof.
  intros Hor Hs Hu. unfold resolve_range.
  destruct (v_since opt) as [x |] eqn:Es;
    destruct (v_until opt) as [y |] eqn:Eu;
    cbv beta iota;
    try (rewrite Hs; cbn [res_bind]; rewrite Hu; reflexivity).
  destruct Hor as [H | H]; destruct (H eq_refl).
Qed.

Lemma until_next_day_ok (opt : Values) (u : date) :
  (until_given opt = true -> u < Calendar.MAXORDINAL) ->
  until_next_day opt u = inr (u + 1).
Proof.
  intros H. unfold until_next_day, Calendar.add_day.
  destruct (until_given opt); [| reflexivity].
  apply Z.ltb_lt in H; [| reflexivity]. rewrite H. reflexivity.
Qed.

Lemma until_next_day_overflow (opt : Values) (u : date) :
  until_given opt = true -> Calendar.MAXORDINAL <= u ->
  until_next_day opt u
  = inl (OtherError "OverflowError" "date value out of range").
Proof.
  intros Hg H. unfold until_next_day, Calendar.add_day. rewrite Hg.
  apply Z.ltb_ge in H. rewrite H. reflexivity.
Qed.

Lemma until_given_text (opt : Values) (d : string) :
  d <> EmptyString -> v_until opt = Some d ->
  until_given opt = true /\ forall dflt, or_default (Some d) dflt = d.
Proof.
  intros Hd Hu. unfold until_given. rewrite Hu.
  destruct d; [contradiction | split; reflexivity].
Qed.

(** C2, as amended. The range comes from the period resolver, run on the
    positional arguments, when neither [--since] nor [--until] was given;
    in every other case [since] is read from the given text or else from
    [1993-01-01] and [until] from the given text or else from [today],
    whatever the positional arguments are, and then: when the date of a
    given [--until] is the last of the calendar, 9999-12-31, the day
    cannot be added and [parse] fails with [OverflowError]; otherwise
    the date of [until] is moved one day on and the label is
    [given date range], [parse] returns these dates and prints the banner
    with this label. In particular [--since 2024-01-01 --until
    2024-01-10] gives the dates 2024-01-01 and 2024-01-11 and the banner
    of that range. *)
Theorem parse_date_range (C : Collaborators) :
  (forall opt arg,
     v_since opt = None -> v_until opt = None ->
     resolve_range C opt arg = time_period C arg) /\
  (forall opt arg s u,
     v_since opt <> None \/ v_until opt <> None ->
     Date_new C (or_default (v_since opt) "1993-01-01") = inr s ->
     Date_new C (or_default (v_until opt) "today") = inr u ->
     (until_given opt = true -> u < Calendar.MAXORDINAL) ->
     resolve_range C opt arg = inr (s, u + 1, "given date range")) /\
  (forall opt arg st em s u,
     resolve_emails C opt = inr em ->
     Date_new C (or_default (v_since opt) "1993-01-01") = inr s ->
     Date_new C (or_default (v_until opt) "today") = inr u ->
     until_given opt = true -> Calendar.MAXORDINAL <= u ->
     parse_options C opt arg st
     = (inl (OtherError "OverflowError" "date value out of range"),
        after_debug C opt st)) /\
  (forall opt arg st em s u p,
     resolve_emails C opt = inr em ->
     v_since opt = None -> v_until opt = None ->
     time_period C arg = inr (s, u, p) -> s < u ->
     exists o,
       parse_options C opt arg st
       = (inr o, add_out (parse_events C p o) (after_debug C opt st))
       /\ since o = s /\ until o = u) /\
  (forall opt arg st em s u,
     resolve_emails C opt = inr em ->
     v_since opt <> None \/ v_until opt <> None ->
     Date_new C (or_default (v_since opt) "1993-01-01") = inr s ->
     Date_new C (or_default (v_until opt) "today") = inr u ->
     (until_given opt = true -> u < Calendar.MAXORDINAL) ->
     s < u + 1 ->
     exists o,
       parse_options C opt arg st
       = (inr o,
          add_out (parse_events C "given date range" o)
            (after_debug C opt st))
       /\ since o = s /\ until o = u + 1) /\
  (forall st e,
     Config_email C = inr e ->
     Date_new C "2024-01-01" = inr (Calendar.ord 2024 1 1) ->
     Date_new C "2024-01-10" = inr (Calendar.ord 2024 1 10) ->
     exists o st',
       parse C (Some (ArgList ["--since"; "2024-01-01";
                               "--until"; "2024-01-10"])) st
       = (inr o, st')
       /\ since o = Calendar.ord 2024 1 1
       /\ until o = Calendar.ord 2024 1 11
       /\ Print (banner C "given date range" (Calendar.ord 2024 1 1)
                   (Calendar.ord 2024 1 11)) ∈ out st').
Proof.
  assert (Hperiod : forall opt arg,
            v_since opt = None -> v_until opt = None ->
            resolve_range C opt arg = time_period C arg).
  { intros opt arg Hs Hu. unfold resolve_range. rewrite Hs, Hu.
    reflexivity. }
  assert (Hgiven : forall opt arg s u,
            v_since opt <> None \/ v_until opt <> None ->
            Date_new C (or_default (v_since opt) "1993-01-01") = inr s ->
            Date_new C (or_default (v_until opt) "today") = inr u ->
            (until_given opt = true -> u < Calendar.MAXORDINAL) ->
            resolve_range C opt arg = inr (s, u + 1, "given date range")).
  { intros opt arg s u Hor Hs Hu Hin.
    rewrite (resolve_range_given C opt arg s u Hor Hs Hu),
      (until_next_day_ok opt u Hin).
    reflexivity. }
  assert (Hrun : forall opt arg st em s u p,
            resolve_emails C opt = inr em ->
            resolve_range C opt arg = inr (s, u, p) -> s < u ->
            exists o,
              parse_options C opt arg st
              = (inr o, add_out (parse_events C p o) (after_debug C opt st))
              /\ since o = s /\ until o = u).
  { intros opt arg st em s u p Hem Hr Hlt.
    rewrite parse_options_run, Hem, Hr.
    apply Z.ltb_lt in Hlt. rewrite Hlt.
    eexists. split; [reflexivity |]. split; reflexivity. }
  split; [exact Hperiod |]. split; [exact Hgiven |].
  split; [| split; [| split]].
  - intros opt arg st em s u Hem Hs Hu Hg Hmax.
    assert (Hor : v_since opt <> None \/ v_until opt <> None).
    { right. unfold until_given in Hg.
      destruct (v_until opt); [discriminate | discriminate Hg]. }
    rewrite parse_options_run, Hem,
      (resolve_range_given C opt arg s u Hor Hs Hu),
      (until_next_day_overflow opt u Hg Hmax).
    reflexivity.
  - intros opt arg st em s u p Hem Hs Hu Hp Hlt.
    apply (Hrun opt arg st em s u p Hem); [| exact Hlt].
    rewrite (Hperiod opt arg Hs Hu). exact Hp.
  - intros opt arg st em s u Hem Hor Hs Hu Hin Hlt.
    apply (Hrun opt arg st em s (u + 1) "given date range" Hem);
      [| exact Hlt].
    apply (Hgiven opt arg s u Hor Hs Hu Hin).
  - intros st e He H1 H2. rewrite parse_run. cbn zeta.
    change (Optparse.process_args C _ [] (Optparse.defaults C))
      with (Optparse.Parsed
              (Optparse.set_until (Some "2024-01-10")
                 (Optparse.set_since (Some "2024-01-01")
                    (Optparse.defaults C))) []).
    cbv beta iota.
    destruct (Hrun (Optparse.set_until (Some "2024-01-10")
                      (Optparse.set_since (Some "2024-01-01")
                         (Optparse.defaults C)))
                [] (with_arguments
                      (stored_arguments (self_arguments st)
                         (Some (ArgList ["--since"; "2024-01-01";
                                         "--until"; "2024-01-10"]))) st)
                (utils_split e)
                (Calendar.ord 2024 1 1) (Calendar.ord 2024 1 11)
                "given date range") as (o & Ho & Hs & Hu).
    + unfold resolve_emails. cbn [v_emails Optparse.set_until
                                  Optparse.set_since Optparse.defaults].
      rewrite He. reflexivity.
    + assert (Hsince : v_since
                         (Optparse.set_until (Some "2024-01-10")
                            (Optparse.set_since (Some "2024-01-01")
                               (Optparse.defaults C))) <> None)
        by discriminate.
      assert (Hin : until_given
                      (Optparse.set_until (Some "2024-01-10")
                         (Optparse.set_since (Some "2024-01-01")
                            (Optparse.defaults C))) = true ->
                    Calendar.ord 2024 1 10 < Calendar.MAXORDINAL)
        by (intros _; reflexivity).
      exact (Hgiven _ [] _ (Calendar.ord 2024 1 10) (or_introl Hsince)
               H1 H2 Hin).
    + reflexivity.
    + exists o. eexists. split; [exact Ho |].
      split; [exact Hs |]. split; [exact Hu |].
      unfold parse_events. cbn [out add_out]. rewrite Hs, Hu.
      rewrite elem_of_app. right. apply list_elem_of_here.
Qed.

Lemma parse_date_range_witness :
  resolve_range Reference.C0 (Optparse.defaults Reference.C0) ["last"]
  = time_period Reference.C0 ["last"]
  /\ resolve_range Reference.C0
       (Optparse.set_until (Some "2024-01-10")
          (Optparse.defaults Reference.C0)) ["last"]
     = inr (Calendar.ord 1993 1 1, Calendar.ord 2024 1 10 + 1,
            "given date range")
  /\ parse_options Reference.C0
       (Optparse.set_until (Some "9999-12-31")
          (Optparse.defaults Reference.C0)) ["last"] Reference.st0
     = (inl (OtherError "OverflowError" "date value out of range"),
        Reference.st0)
  /\ (exists o,
        parse_options Reference.C0 (Optparse.defaults Reference.C0)
          ["last"; "month"] Reference.st0
        = (inr o,
           add_out (parse_events Reference.C0 "the last month" o)
             Reference.st0)
        /\ since o = Calendar.ord 2024 2 1
        /\ until o = Calendar.ord 2024 3 1)
  /\ (exists o,
        parse_options Reference.C0
          (Optparse.set_since (Some "2024-03-01")
             (Optparse.defaults Reference.C0))
          ["last"; "month"] Reference.st0
        = (inr o,
           add_out (parse_events Reference.C0 "given date range" o)
             Reference.st0)
        /\ since o = Calendar.ord 2024 3 1
        /\ until o = Reference.today + 1)
  /\ exists o st',
       parse Reference.C0
         (Some (ArgList ["--since"; "2024-01-01"; "--until"; "2024-01-10"]))
         Reference.st0
       = (inr o, st')
       /\ since o = Calendar.ord 2024 1 1
       /\ until o = Calendar.ord 2024 1 11
       /\ Print (banner Reference.C0 "given date range"
                   (Calendar.ord 2024 1 1) (Calendar.ord 2024 1 11))
          ∈ out st'.
Proof.
  pose proof (parse_date_range Reference.C0)
    as (H1 & H2 & H3 & H4 & H5 & H6).
  split; [| split; [| split; [| split; [| split]]]].
  - apply H1; reflexivity.
  - apply H2; [right; discriminate | reflexivity | reflexivity
              | intros _; reflexivity].
  - exact (H3 (Optparse.set_until (Some "9999-12-31")
                 (Optparse.defaults Reference.C0)) ["last"] Reference.st0
             ["me@example.com"] (Calendar.ord 1993 1 1)
             (Calendar.ord 9999 12 31) eq_refl eq_refl eq_refl eq_refl
             (Z.le_refl _)).
  - exact (H4 (Optparse.defaults Reference.C0) ["last"; "month"]
             Reference.st0 ["me@example.com"] (Calendar.ord 2024 2 1)
             (Calendar.ord 2024 3 1) "the last month"
             eq_refl eq_refl eq_refl eq_refl eq_refl).
  - assert (Hsince : v_since
                       (Optparse.set_since (Some "2024-03-01")
                          (Optparse.defaults Reference.C0)) <> None)
      by discriminate.
    assert (Hin : until_given
                    (Optparse.set_since (Some "2024-03-01")
                       (Optparse.defaults Reference.C0)) = true ->
                  Reference.today < Calendar.MAXORDINAL)
      by (intros _; reflexivity).
    exact (H5 (Optparse.set_since (Some "2024-03-01")
                 (Optparse.defaults Reference.C0)) ["last"; "month"]
             Reference.st0 ["me@example.com"] (Calendar.ord 2024 3 1)
             Reference.today eq_refl (or_introl Hsince)
             eq_refl eq_refl Hin eq_refl).
  - apply (H6 Reference.st0 (EmailStr "me@example.com")); reflexivity.
Defined.

(** C2, as stated, fails for the last date of the calendar: with
    [--until 9999-12-31] the day cannot be added, [parse] raises
    [OverflowError] and no [until] is set. *)
Lemma parse_until_last_day_cex :
  exists st',
    parse Reference.C0 (Some (ArgList ["--until"; "9999-12-31"]))
      Reference.st0
    = (inl (OtherError "OverflowError" "date value out of range"), st')
    /\ Reference.date_of_text "9999-12-31" = inr Calendar.MAXORDINAL.
Proof.
  eexists. split; [vm_compute; reflexivity | reflexivity].
Qed.

(** C3. Once the addresses and the range are resolved, [parse] goes on
    exactly when the date of [since] is before the date of [until], the
    exclusive bound; otherwise it raises the range error, whose message
    shows [until] less one day, and nothing is printed. *)
Theorem parse_validates_range (C : Collaborators) (opt : Values)
    (arg : list string) (st : state) (em : list string) (s u : date)
    (p : string) :
  resolve_emails C opt = inr em ->
  resolve_range C opt arg = inr (s, u, p) ->
  (s < u ->
     exists o,
       parse_options C opt arg st
       = (inr o, add_out (parse_events C p o) (after_debug C opt st))
       /\ since o = s /\ until o = u) /\
  (s >= u ->
     parse_options C opt arg st
     = (inl (RuntimeError
               ("Invalid date range (" +:+ Date_str C s +:+ " to "
                +:+ Calendar.isoformat (u - 1) +:+ ")")),
        after_debug C opt st)) /\
  ((exists o st', parse_options C opt arg st = (inr o, st')) <-> s < u).
Proof.
  intros Hem Hr. rewrite parse_options_run, Hem, Hr.
  destruct (Z.ltb_spec s u) as [Hlt | Hge].
  - split; [| split].
    + intros _. eexists. split; [reflexivity |]. split; reflexivity.
    + intros Hge. lia.
    + split; [intros _; exact Hlt |].
      intros _. eexists. eexists. reflexivity.
  - split; [| split].
    + intros Hlt. lia.
    + intros _. reflexivity.
    + split; [| intros Hlt; lia].
      intros (o & st' & H). discriminate H.
Qed.

Lemma parse_validates_range_witness :
  (exists o,
     parse_options Reference.C0
       (Optparse.set_until (Some "2024-01-10")
          (Optparse.set_since (Some "2024-01-01")
             (Optparse.defaults Reference.C0))) [] Reference.st0
     = (inr o,
        add_out (parse_events Reference.C0 "given date range" o)
          Reference.st0)
     /\ since o = Calendar.ord 2024 1 1
     /\ until o = Calendar.ord 2024 1 11)
  /\ parse_options Reference.C0
       (Optparse.set_until (Some "2024-01-01")
          (Optparse.set_since (Some "2024-01-10")
             (Optparse.defaults Reference.C0))) [] Reference.st0
     = (inl (RuntimeError "Invalid date range (2024-01-10 to 2024-01-01)"),
        Reference.st0).
Proof.
  split.
  - pose proof (parse_validates_range Reference.C0
                  (Optparse.set_until (Some "2024-01-10")
                     (Optparse.set_since (Some "2024-01-01")
                        (Optparse.defaults Reference.C0)))
                  [] Reference.st0
                  ["me@example.com"] (Calendar.ord 2024 1 1)
                  (Calendar.ord 2024 1 11) "given date range"
                  eq_refl eq_refl) as (H & _ & _).
    apply H. reflexivity.
  - pose proof (parse_validates_range Reference.C0
                  (Optparse.set_until (Some "2024-01-01")
                     (Optparse.set_since (Some "2024-01-10")
                        (Optparse.defaults Reference.C0)))
                  [] Reference.st0
                  ["me@example.com"] (Calendar.ord 2024 1 10)
                  (Calendar.ord 2024 1 2) "given date range"
                  eq_refl eq_refl) as (_ & H & _).
    apply H. vm_compute. discriminate.
Defined.

(** C10, as amended. For a non-empty text [d] that the date type reads
    as a date [x] before the last of the calendar, and with an address to
    report on in the configuration (the command line gives none),
    [--since d --until d] is accepted: the range is [x] to [x] plus one
    day, the validation passes, [parse] returns these dates and the
    banner shows the window from [x] to [x]. *)
Theorem parse_equal_dates (C : Collaborators) (d : string) (x : date)
    (e : email_value) (st : state) :
  d <> EmptyString ->
  Date_new C d = inr x ->
  x < Calendar.MAXORDINAL ->
  Config_email C = inr e ->
  resolve_range C
    (Optparse.set_until (Some d)
       (Optparse.set_since (Some d) (Optparse.defaults C))) []
  = inr (x, x + 1, "given date range")
  /\ validate C x (x + 1) = inr tt
  /\ exists o st',
       parse C (Some (ArgList ["--since"; d; "--until"; d])) st
       = (inr o, st')
       /\ since o = x /\ until o = x + 1
       /\ Print ("Status report for given date range (" +:+ Date_str C x
                 +:+ " to " +:+ Calendar.isoformat x +:+ ").")
          ∈ out st'.
Proof.
  intros Hd Hx Hmax He.
  set (opt := Optparse.set_until (Some d)
                (Optparse.set_since (Some d) (Optparse.defaults C))).
  destruct (until_given_text opt d Hd eq_refl) as [Hg Hor].
  assert (Hr : resolve_range C opt [] = inr (x, x + 1, "given date range")).
  { rewrite (resolve_range_given C opt [] x x).
    - rewrite until_next_day_ok; [reflexivity | intros _; exact Hmax].
    - left. discriminate.
    - unfold opt. cbn [Optparse.set_until Optparse.set_since v_since].
      rewrite Hor. exact Hx.
    - unfold opt. cbn [Optparse.set_until v_until].
      rewrite Hor. exact Hx. }
  assert (Hlt : (x <? x + 1) = true) by (apply Z.ltb_lt; lia).
  assert (Hb : banner C "given date range" x (x + 1)
               = "Status report for given date range (" +:+ Date_str C x
                 +:+ " to " +:+ Calendar.isoformat x +:+ ").").
  { unfold banner. replace (x + 1 - 1) with x by lia. reflexivity. }
  split; [exact Hr |]. split.
  { unfold validate. rewrite Hlt. reflexivity. }
  rewrite parse_run. cbn zeta.
  change (Optparse.process_args C _ [] (Optparse.defaults C))
    with (Optparse.Parsed opt []).
  cbv beta iota. rewrite parse_options_run, Hr.
  unfold resolve_emails. unfold opt at 1. cbn [v_emails Optparse.set_until
    Optparse.set_since Optparse.defaults].
  rewrite He. cbn [res_bind]. cbv beta iota. rewrite Hlt.
  eexists. eexists. split; [reflexivity |].
  split; [reflexivity |]. split; [reflexivity |].
  rewrite <- Hb. cbn [out add_out parse_events].
  rewrite elem_of_app. right. apply list_elem_of_here.
Qed.

Lemma parse_equal_dates_witness :
  exists o st',
    parse Reference.C0
      (Some (ArgList ["--since"; "2024-02-29"; "--until"; "2024-02-29"]))
      Reference.st0
    = (inr o, st')
    /\ since o = Calendar.ord 2024 2 29
    /\ until o = Calendar.ord 2024 2 29 + 1
    /\ Print "Status report for given date range (2024-02-29 to 2024-02-29)."
       ∈ out st'.
Proof.
  pose proof (parse_equal_dates Reference.C0 "2024-02-29"
                (Calendar.ord 2024 2 29) (EmailStr "me@example.com")
                Reference.st0) as H.
  apply H; [discriminate | reflexivity | reflexivity | reflexivity].
Defined.

(** C10, as stated, fails for the last date of the calendar: the text
    9999-12-31 is a date, and [--since] and [--until] with it make
    [parse] raise [OverflowError] at the added day. *)
Lemma parse_equal_dates_last_day_cex :
  Reference.date_of_text "9999-12-31" = inr (Calendar.ord 9999 12 31)
  /\ exists st',
       parse Reference.C0
         (Some (ArgList ["--since"; "9999-12-31"; "--until"; "9999-12-31"]))
         Reference.st0
       = (inl (OtherError "OverflowError" "date value out of range"), st').
Proof.
  split; [reflexivity |].
  eexists. vm_compute. reflexivity.
Qed.

(** ** The derived option [all] *)

(** [all] holds exactly when no entry of lines 96-99 holds: for every stat
    of every group, neither the flag of the stat nor the flag of its group
    is set. *)
Lemma compute_all_true (groups : list StatsGroup) (opt : Values) :
  compute_all groups opt = true <->
  forall g s, g ∈ groups -> s ∈ group_stats g ->
    getattr opt (stat_dest s) = false /\ getattr opt (group_dest g) = false.
Proof.
  unfold compute_all, enable_entries.
  rewrite negb_true_iff, <- not_true_iff_false, existsb_exists.
  split.
  - intros Hnone g s Hg Hs. apply orb_false_elim.
    apply not_true_is_false. intros Hb. apply Hnone.
    exists (getattr opt (stat_dest s) || getattr opt (group_dest g)).
    split; [| exact Hb].
    apply list_elem_of_In, list_elem_of_bind. exists g. split; [| exact Hg].
    apply list_elem_of_bind. exists s. split; [| exact Hs].
    apply list_elem_of_here.
  - intros Hall (b & Hin & Hb).
    apply list_elem_of_In, list_elem_of_bind in Hin
      as (g & Hin & Hg).
    apply list_elem_of_bind in Hin as (s & Hin & Hs).
    apply list_elem_of_singleton in Hin. subst b.
    destruct (Hall g s Hg Hs) as [H1 H2]. rewrite H1, H2 in Hb.
    discriminate Hb.
Qed.

(** When every group has a stat, [all] holds exactly when no enable flag
    of the schema, of a stat or of a group, is set. *)
Lemma compute_all_nonempty_groups (groups : list StatsGroup)
    (opt : Values) :
  (forall g, g ∈ groups -> group_stats g <> []) ->
  (compute_all groups opt = true <->
   forall g, g ∈ groups ->
     getattr opt (group_dest g) = false
     /\ forall s, s ∈ group_stats g -> getattr opt (stat_dest s) = false).
Proof.
  intros Hne. rewrite compute_all_true. split.
  - intros H g Hg. split.
    + destruct (group_stats g) as [| s0 l] eqn:E.
      * destruct (Hne g Hg E).
      * apply (H g s0 Hg). rewrite E. apply list_elem_of_here.
    + intros s Hs. apply (H g s Hg Hs).
  - intros H g s Hg Hs. destruct (H g Hg) as [H1 H2].
    split; [apply H2; exact Hs | exact H1].
Qed.

(** C4, the failing input. With a group that has no stat in the schema,
    the flag of that group is set and [all] is true all the same. *)
Theorem all_ignores_group_without_stats :
  exists o st',
    parse Reference.C_header (Some (ArgList ["--header"])) Reference.st0
    = (inr o, st')
    /\ "header" ∈ flags o
    /\ all o = true.
Proof.
  eexists. eexists. split; [vm_compute; reflexivity |].
  split; [by_decide | reflexivity].
Qed.

(** ** The addresses *)

Lemma append_nil_r (s : string) : s +:+ EmptyString = s.
Proof.
  induction s as [| c s IH]; [reflexivity |].
  change (String c (s +:+ EmptyString) = String c s). f_equal. exact IH.
Qed.

Lemma append_assoc (a b c : string) : (a +:+ b) +:+ c = a +:+ (b +:+ c).
Proof.
  induction a as [| x a IH]; [reflexivity |].
  change (String x ((a +:+ b) +:+ c) = String x (a +:+ (b +:+ c))).
  f_equal. exact IH.
Qed.

(** A piece without comma and whitespace is read in one go. *)
Lemma split_go_plain (a : string) :
  forall (rest : string) (sk : bool) (cur : string),
    Text.plain a = true ->
    Text.split_go (a +:+ rest) sk cur EmptyString
    = Text.split_go rest
        (match a with EmptyString => sk | String _ _ => false end)
        (cur +:+ a) EmptyString.
Proof.
  induction a as [| c a IH]; intros rest sk cur Hp.
  - simpl. rewrite append_nil_r. reflexivity.
  - simpl in Hp. apply andb_prop in Hp as [Hc Hp].
    apply andb_prop in Hc as [Hcomma Hspace].
    apply negb_true_iff in Hcomma, Hspace.
    change (String c a +:+ rest) with (String c (a +:+ rest)).
    cbn [Text.split_go]. rewrite Hcomma, Hspace.
    change (EmptyString +:+ String c EmptyString) with (String c EmptyString).
    rewrite (IH rest false _ Hp), append_assoc.
    change (String c EmptyString +:+ a) with (String c a).
    destruct a; reflexivity.
Qed.

Lemma re_split_plain (a : string) :
  Text.plain a = true -> Text.re_split a = [a].
Proof.
  intros Hp. unfold Text.re_split.
  rewrite <- (append_nil_r a) at 1.
  rewrite (split_go_plain a EmptyString false EmptyString Hp).
  simpl. rewrite append_nil_r. reflexivity.
Qed.

(** The pieces joined by a comma and a space are found again, in their
    order and as often as they occur. *)
Lemma split_go_join (l : list string) :
  forall sk : bool,
    l <> [] -> Forall (fun a => Text.plain a = true) l ->
    Text.split_go (Text.join ", " l) sk EmptyString EmptyString = l.
Proof.
  induction l as [| a l IH]; intros sk Hne Hall; [destruct (Hne eq_refl) |].
  inversion Hall as [| ? ? Ha Hl]; subst.
  destruct l as [| b l].
  - simpl Text.join. rewrite <- (append_nil_r a) at 1.
    rewrite (split_go_plain a EmptyString sk EmptyString Ha).
    simpl. rewrite append_nil_r. reflexivity.
  - change (Text.join ", " (a :: b :: l))
      with (a +:+ ", " +:+ Text.join ", " (b :: l)).
    rewrite (split_go_plain a _ sk EmptyString Ha).
    change (EmptyString +:+ a) with a.
    change (", " +:+ Text.join ", " (b :: l))
      with (String "," (String " " (Text.join ", " (b :: l)))).
    set (tail := Text.join ", " (b :: l)).
    set (sk' := match a with EmptyString => sk | String _ _ => false end).
    change (Text.split_go (String "," (String " " tail)) sk' a EmptyString)
      with (a :: Text.split_go tail true EmptyString EmptyString).
    subst tail. rewrite (IH true); [reflexivity | discriminate | exact Hl].
Qed.

Lemma utils_split_plain_list (l : list string) :
  Forall (fun a => Text.plain a = true) l -> utils_split (EmailList l) = l.
Proof.
  unfold utils_split. induction 1 as [| a l Ha Hl IH]; [reflexivity |].
  change ((a :: l) ≫= Text.re_split)
    with (Text.re_split a ++ (l ≫= Text.re_split)).
  rewrite IH, (re_split_plain a Ha). reflexivity.
Qed.

(** ** Running [main] *)

Lemma main_body_run (C : Collaborators) (arguments : option argval)
    (st : state) :
  main_body C arguments st =
  match parse C arguments (after_init st) with
  | (inl e, st1) => (inl e, st1)
  | (inr o, st1) => gather C o st1
  end.
Proof. reflexivity. Qed.

Lemma main_run (C : Collaborators) (arguments : option argval)
    (st : state) :
  main C arguments st =
  match main_body C arguments st with
  | (inr r, st') => (inr r, st')
  | (inl e, st') => handler C e st'
  end.
Proof. reflexivity. Qed.

(** A successful [parse] has emitted its banner and its two log lines. *)
Lemma parse_success_out (C : Collaborators) (arguments : option argval)
    (st : state) (o : options) (st1 : state) :
  parse C arguments st = (inr o, st1) ->
  exists p, out st1 = out st ++ parse_events C p o.
Proof.
  rewrite parse_run. cbn zeta.
  destruct (Optparse.process_args C _ [] (Optparse.defaults C))
    as [v args | | why]; [| discriminate | discriminate].
  rewrite parse_options_run.
  destruct (resolve_emails C v) as [e | em]; [discriminate |].
  destruct (resolve_range C v args) as [e | [[s u] p]]; [discriminate |].
  destruct (s <? u); [| discriminate].
  cbn zeta. intros H. injection H as <- <-. exists p.
  cbn [out add_out]. rewrite out_after_debug. reflexivity.
Qed.

(** C5. Without [--email] the addresses are those of the configuration;
    with it they are the given ones; each text is cut at the commas with
    the whitespace around them, the pieces staying in the order met and as
    often as they occur, and the list so resolved is the one the options
    returned by [parse] carry, so that one [--email a@x.com, b@y.com] and
    two flags with one address each both give the two addresses; and with
    no address at all [main] raises the configuration error before any
    collection is started, logs it and exits with code 1. *)
Theorem email_resolution (C : Collaborators) :
  (forall opt e,
     v_emails opt = [] -> Config_email C = inr e ->
     resolve_emails C opt = inr (utils_split e)) /\
  (forall opt,
     v_emails opt <> [] ->
     resolve_emails C opt = inr (utils_split (EmailList (v_emails opt)))) /\
  (forall l,
     l <> [] -> Forall (fun a => Text.plain a = true) l ->
     utils_split (EmailStr (Text.join ", " l)) = l
     /\ utils_split (EmailList [Text.join ", " l]) = l
     /\ utils_split (EmailList l) = l) /\
  (forall opt arg st o st',
     parse_options C opt arg st = (inr o, st') ->
     resolve_emails C opt = inr (emails o)) /\
  (forall arguments st o st',
     parse C arguments st = (inr o, st') ->
     exists v a,
       Optparse.process_args C
         (tokens C (stored_arguments (self_arguments st) arguments)) []
         (Optparse.defaults C) = Optparse.Parsed v a
       /\ resolve_emails C v = inr (emails o)
       /\ (v_emails v = [] ->
           exists e, Config_email C = inr e /\ emails o = utils_split e)
       /\ (v_emails v <> [] ->
           emails o = utils_split (EmailList (v_emails v)))) /\
  (exists v,
     Optparse.process_args C ["--email"; "a@x.com, b@y.com"] []
       (Optparse.defaults C) = Optparse.Parsed v []
     /\ resolve_emails C v = inr ["a@x.com"; "b@y.com"]) /\
  (exists v,
     Optparse.process_args C ["--email"; "a@x.com"; "--email"; "b@y.com"] []
       (Optparse.defaults C) = Optparse.Parsed v []
     /\ resolve_emails C v = inr ["a@x.com"; "b@y.com"]) /\
  (forall st o st',
     parse C (Some (ArgList ["--email"; "a@x.com, b@y.com"])) st
     = (inr o, st') ->
     emails o = ["a@x.com"; "b@y.com"]) /\
  (forall st o st',
     parse C (Some (ArgList ["--email"; "a@x.com"; "--email"; "b@y.com"]))
       st
     = (inr o, st') ->
     emails o = ["a@x.com"; "b@y.com"]) /\
  (forall o st,
     emails o = [] ->
     gather C o st = (inl (ConfigError "No user email provided"), st)) /\
  (forall arguments st o st1,
     parse C arguments (after_init st) = (inr o, st1) ->
     emails o = [] ->
     main C arguments st
     = (inl (SystemExit 1),
        add_out [LogError "No user email provided"] st1)
     /\ exists p,
          out (snd (main C arguments st))
          = out st
            ++ [LogDebug "Loading Sample Stats group to build Options"]
            ++ parse_events C p o
            ++ [LogError "No user email provided"]).
Proof.
  assert (Hgather : forall o st,
            emails o = [] ->
            gather C o st = (inl (ConfigError "No user email provided"), st)).
  { intros o st Hnil. unfold gather. rewrite Hnil. reflexivity. }
  assert (Hfall : forall opt e,
            v_emails opt = [] -> Config_email C = inr e ->
            resolve_emails C opt = inr (utils_split e)).
  { intros opt e Hnil He. unfold resolve_emails. rewrite Hnil, He.
    reflexivity. }
  assert (Hflag : forall opt,
            v_emails opt <> [] ->
            resolve_emails C opt
            = inr (utils_split (EmailList (v_emails opt)))).
  { intros opt Hne. unfold resolve_emails.
    destruct (v_emails opt); [destruct (Hne eq_refl) | reflexivity]. }
  assert (Hopt : forall opt arg st o st',
            parse_options C opt arg st = (inr o, st') ->
            resolve_emails C opt = inr (emails o)).
  { intros opt arg st o st' H. rewrite parse_options_run in H.
    destruct (resolve_emails C opt) as [e | em]; [discriminate H |].
    destruct (resolve_range C opt arg) as [e | [[s u] p]];
      [discriminate H |].
    destruct (s <? u); [| discriminate H].
    cbv zeta in H. injection H as <- _. reflexivity. }
  assert (Hparse : forall arguments st o st',
            parse C arguments st = (inr o, st') ->
            exists v a,
              Optparse.process_args C
                (tokens C (stored_arguments (self_arguments st) arguments))
                [] (Optparse.defaults C) = Optparse.Parsed v a
              /\ resolve_emails C v = inr (emails o)).
  { intros arguments st o st' H. rewrite parse_run in H. cbv zeta in H.
    destruct (Optparse.process_args C _ [] (Optparse.defaults C))
      as [v a | | why]; [| discriminate H | discriminate H].
    exists v, a. split; [reflexivity |].
    apply (Hopt v a _ o st' H). }
  assert (Hline : forall l v st o st',
            Optparse.process_args C l [] (Optparse.defaults C)
            = Optparse.Parsed v [] ->
            parse C (Some (ArgList l)) st = (inr o, st') ->
            resolve_emails C v = inr (emails o)).
  { intros l v st o st' Hl H.
    destruct (Hparse _ _ _ _ H) as (v' & a' & Hp & Hr).
    cbn [stored_arguments tokens] in Hp. rewrite Hl in Hp.
    injection Hp as <- _. exact Hr. }
  split; [exact Hfall |]. split; [exact Hflag |]. split.
  { intros l Hne Hall. split; [| split].
    - unfold utils_split, Text.re_split. apply split_go_join; assumption.
    - unfold utils_split. change ([Text.join ", " l] ≫= Text.re_split)
        with (Text.re_split (Text.join ", " l) ++ []).
      rewrite app_nil_r. apply split_go_join; assumption.
    - apply utils_split_plain_list. assumption. }
  split; [exact Hopt |]. split.
  { intros arguments st o st' H.
    destruct (Hparse _ _ _ _ H) as (v & a & Hp & Hr).
    exists v, a. split; [exact Hp |]. split; [exact Hr |]. split.
    - intros Hnil. unfold resolve_emails in Hr. rewrite Hnil in Hr.
      destruct (Config_email C) as [x | e]; [discriminate Hr |].
      exists e. split; [reflexivity |].
      injection Hr as Hr. symmetry. exact Hr.
    - intros Hne. rewrite (Hflag v Hne) in Hr.
      injection Hr as Hr. symmetry. exact Hr. }
  split; [eexists; split; reflexivity |].
  split; [eexists; split; reflexivity |].
  split.
  { intros st o st' H.
    pose proof (Hline ["--email"; "a@x.com, b@y.com"] _ st o st' eq_refl H)
      as Hr.
    injection Hr as Hr. symmetry. exact Hr. }
  split.
  { intros st o st' H.
    pose proof (Hline ["--email"; "a@x.com"; "--email"; "b@y.com"] _
                  st o st' eq_refl H) as Hr.
    injection Hr as Hr. symmetry. exact Hr. }
  split; [exact Hgather |].
  intros arguments st o st1 H Hnil. split.
  - rewrite main_run, main_body_run, H, (Hgather o st1 Hnil). reflexivity.
  - destruct (parse_success_out C arguments (after_init st) o st1 H)
      as [p Hp].
    exists p.
    rewrite main_run, main_body_run, H, (Hgather o st1 Hnil).
    cbn [handler bind emit raise snd out add_out exn_str].
    rewrite Hp. cbn [after_init out add_out with_arguments].
    rewrite <- !app_assoc. reflexivity.
Qed.

Lemma email_resolution_witness :
  resolve_emails Reference.C0 (Optparse.defaults Reference.C0)
  = inr ["me@example.com"]
  /\ utils_split (EmailList ["a@x.com"; "b@y.com"; "a@x.com"])
     = ["a@x.com"; "b@y.com"; "a@x.com"]
  /\ (exists o st',
        parse Reference.C0
          (Some (ArgList ["--email"; "a@x.com, b@y.com"])) Reference.st0
        = (inr o, st')
        /\ emails o = ["a@x.com"; "b@y.com"])
  /\ (exists o st',
        parse Reference.C0 (Some (ArgList ["last"; "week"])) Reference.st0
        = (inr o, st')
        /\ emails o = ["me@example.com"])
  /\ fst (main Reference.C_nobody (Some (ArgString "--merge"))
            Reference.st0)
     = inl (SystemExit 1).
Proof.
  pose proof (email_resolution Reference.C0)
    as (H1 & _ & H3 & _ & H5 & _ & _ & H8 & _).
  pose proof (email_resolution Reference.C_nobody)
    as (_ & _ & _ & _ & _ & _ & _ & _ & _ & _ & H11).
  split; [| split; [| split; [| split]]].
  - apply (H1 _ (EmailStr "me@example.com")); reflexivity.
  - apply (H3 ["a@x.com"; "b@y.com"; "a@x.com"]);
      [discriminate | repeat constructor].
  - destruct (parse Reference.C0
                (Some (ArgList ["--email"; "a@x.com, b@y.com"]))
                Reference.st0) as [[e | o] st'] eqn:H;
      [vm_compute in H; discriminate H |].
    exists o, st'. split; [reflexivity |].
    apply (H8 Reference.st0 o st' H).
  - destruct (parse Reference.C0 (Some (ArgList ["last"; "week"]))
                Reference.st0) as [[e | o] st'] eqn:H;
      [vm_compute in H; discriminate H |].
    exists o, st'. split; [reflexivity |].
    destruct (H5 _ _ _ _ H) as (v & a & Hp & _ & Hnil & _).
    cbn [stored_arguments tokens] in Hp.
    assert (Hv : v_emails v = []).
    { vm_compute in Hp. injection Hp as <- _. reflexivity. }
    destruct (Hnil Hv) as (e & He & Ho).
    rewrite Ho. vm_compute in He. injection He as <-. reflexivity.
  - destruct (H11 (Some (ArgString "--merge")) Reference.st0
                (fst (Reference.nobody_parsed)) (snd Reference.nobody_parsed))
      as [H _]; [vm_compute; reflexivity | reflexivity |].
    rewrite H. reflexivity.
Defined.

(** ** The failure classifier *)

(** C6. Whatever exception the body of [main] raises: a [ConfigError] or
    a [ReportError] is logged and the exit code is 1; a [GSSError] gives
    the fixed message about Kerberos and the exit code 2; a
    [NoSectionError] is logged, followed by the hint, the two lines of the
    example configuration with the name of the current user, and the exit
    code 3; every other exception, the [RuntimeError] of an invalid date
    range among them, leaves [main] as it is, with nothing logged. A body
    that returns makes [main] return the same. *)
Theorem failure_classifier (C : Collaborators) (arguments : option argval)
    (st : state) :
  (forall e st',
     main_body C arguments st = (inl e, st') ->
     main C arguments st =
     match e with
     | ConfigError m | ReportError m =>
         (inl (SystemExit 1), add_out [LogError m] st')
     | GSSError _ =>
         (inl (SystemExit 2),
          add_out [LogError "Kerberos authentication failed. Try kinit."] st')
     | NoSectionError m =>
         (inl (SystemExit 3),
          add_out
            [LogError m;
             LogError
               "No email provided on the command line or in the config file";
             Info ("Create at least a minimum config file " +:+ CONFIG C
                   +:+ ":");
             Info ("[general]" +:+ Text.newline +:+ "email = "
                   +:+ Text.quote +:+ "My Name" +:+ Text.quote +:+ " <"
                   +:+ getuser C +:+ "@domain.com>")] st')
     | RuntimeError _ | SystemExit _ | OtherError _ _ => (inl e, st')
     end) /\
  (forall r st',
     main_body C arguments st = (inr r, st') ->
     main C arguments st = (inr r, st')).
Proof.
  split.
  - intros e st' H. rewrite main_run, H.
    destruct e; unfold handler, bind, emit, raise;
      rewrite ?add_out_add_out; reflexivity.
  - intros r st' H. rewrite main_run, H. reflexivity.
Qed.

Lemma failure_classifier_witness :
  fst (main Reference.C0
         (Some (ArgString "--since 2024-01-10 --until 2024-01-01"))
         Reference.st0)
  = inl (RuntimeError "Invalid date range (2024-01-10 to 2024-01-01)")
  /\ fst (main Reference.C_nobody (Some (ArgList [])) Reference.st0)
     = inl (SystemExit 1)
  /\ fst (main Reference.C_denied (Some (ArgList [])) Reference.st0)
     = inl (SystemExit 2)
  /\ fst (main Reference.C_unconfigured (Some (ArgList [])) Reference.st0)
     = inl (SystemExit 3).
Proof.
  split; [| split; [| split]].
  - pose proof (failure_classifier Reference.C0
                  (Some (ArgString "--since 2024-01-10 --until 2024-01-01"))
                  Reference.st0) as [H _].
    rewrite (H (RuntimeError "Invalid date range (2024-01-10 to 2024-01-01)")
               (snd (main_body Reference.C0
                       (Some (ArgString
                                "--since 2024-01-10 --until 2024-01-01"))
                       Reference.st0)));
      [reflexivity | vm_compute; reflexivity].
  - pose proof (failure_classifier Reference.C_nobody (Some (ArgList []))
                  Reference.st0) as [H _].
    rewrite (H (ConfigError "No user email provided")
               (snd (main_body Reference.C_nobody (Some (ArgList []))
                       Reference.st0)));
      [reflexivity | vm_compute; reflexivity].
  - pose proof (failure_classifier Reference.C_denied (Some (ArgList []))
                  Reference.st0) as [H _].
    rewrite (H (GSSError "No credentials cache found")
               (snd (main_body Reference.C_denied (Some (ArgList []))
                       Reference.st0)));
      [reflexivity | vm_compute; reflexivity].
  - pose proof (failure_classifier Reference.C_unconfigured
                  (Some (ArgList [])) Reference.st0) as [H _].
    rewrite (H (NoSectionError "No section: 'general'")
               (snd (main_body Reference.C_unconfigured (Some (ArgList []))
                       Reference.st0)));
      [reflexivity | vm_compute; reflexivity].
Defined.

(** ** The loop over the users *)

Lemma call_run {A : Type} (c : list string * Res A) (st : state) :
  call c st = (snd c, add_out (map PluginOut (fst c)) st).
Proof. reflexivity. Qed.

(** One turn of the loop (lines 200-208). *)
Lemma check_users_cons (C : Collaborators) (o : options) (user : User)
    (rest : list User) (team : Stats C) (gathered : list (Stats C))
    (st : state) :
  check_users C o (user :: rest) team gathered st =
  let c := check C (UserStats_new C (Some user) o) in
  let st3 :=
    add_out
      ([if merge o then Item (OfUser user) 1 else Header (OfUser user);
        Collect user] ++ map PluginOut (fst c)) st in
  match snd c with
  | inl e => (inl e, st3)
  | inr us =>
      let m := merge_stats C team us in
      let st4 := add_out (map PluginOut (fst m)) st3 in
      match snd m with
      | inl e => (inl e, st4)
      | inr team' => check_users C o rest team' (gathered ++ [us]) st4
      end
  end.
Proof.
  cbn [check_users]. unfold call. unfold bind, emit, emit_all, lift.
  destruct (check C (UserStats_new C (Some user) o)) as [ls [e | us]];
    cbn [fst snd].
  - destruct (merge o); cbv beta iota zeta; rewrite !add_out_add_out;
      reflexivity.
  - destruct (merge_stats C team us) as [ls' [e | team']]; cbn [fst snd];
      destruct (merge o); cbv beta iota zeta; rewrite !add_out_add_out;
      reflexivity.
Qed.

Lemma plugin_out_detail (ls : list string) :
  Forall (fun e => is_user_detail e = true) (map PluginOut ls).
Proof. induction ls; constructor; [reflexivity | assumption]. Qed.

(** The loop appends, and what it appends belongs to the users. *)
Lemma check_users_out (C : Collaborators) (o : options)
    (users : list User) :
  forall (team : Stats C) (gathered : list (Stats C)) (st : state),
  exists evs,
    out (snd (check_users C o users team gathered st)) = out st ++ evs
    /\ Forall (fun e => is_user_detail e = true) evs.
Proof.
  induction users as [| user rest IH]; intros team gathered st.
  - exists []. split; [symmetry; apply app_nil_r | constructor].
  - rewrite check_users_cons. cbv zeta.
    set (c := check C (UserStats_new C (Some user) o)).
    assert (Hhead : Forall (fun e => is_user_detail e = true)
                      ([if merge o then Item (OfUser user) 1
                        else Header (OfUser user);
                        Collect user] ++ map PluginOut (fst c))).
    { apply Forall_app. split; [| apply plugin_out_detail].
      destruct (merge o); repeat constructor. }
    set (head := [if merge o then Item (OfUser user) 1
                  else Header (OfUser user);
                  Collect user] ++ map PluginOut (fst c)) in *.
    destruct (snd c) as [e | us].
    + exists head. split; [reflexivity | exact Hhead].
    + set (m := merge_stats C team us).
      destruct (snd m) as [e | team'].
      * exists (head ++ map PluginOut (fst m)).
        split; [cbn [snd out add_out]; rewrite <- app_assoc; reflexivity |].
        apply Forall_app. split; [exact Hhead | apply plugin_out_detail].
      * destruct (IH team' (gathered ++ [us])
                    (add_out (map PluginOut (fst m)) (add_out head st)))
          as (evs & Hout & Hall).
        exists (head ++ map PluginOut (fst m) ++ evs). split.
        -- rewrite Hout. cbn [out add_out]. rewrite <- !app_assoc.
           reflexivity.
        -- apply Forall_app. split; [exact Hhead |].
           apply Forall_app. split; [apply plugin_out_detail | exact Hall].
Qed.

Lemma count_total_headers_app (a b : list event) :
  count_total_headers (a ++ b)
  = (count_total_headers a + count_total_headers b)%nat.
Proof.
  unfold count_total_headers. rewrite List.filter_app, length_app.
  reflexivity.
Qed.

Lemma count_total_headers_detail (l : list event) :
  Forall (fun e => is_user_detail e = true) l -> count_total_headers l = 0%nat.
Proof.
  unfold count_total_headers.
  induction 1 as [| e l He Hl IH]; [reflexivity |].
  cbn [List.filter].
  replace (is_total_header e) with false; [exact IH |].
  destruct e as [| t | t | | | | | | | |]; try discriminate He;
    try reflexivity; destruct t; try discriminate He; reflexivity.
Qed.

(** ** The report of [main] *)

(** C7, as amended. With merge mode on and at least one address, what
    [main] emits after parsing starts with the [Total Report] header and
    the line with the number of users, before anything of a single user;
    and when total mode is off, that header is the only one in the whole
    output of the run, also when a collaborator fails on the way. *)
Theorem merge_banner_first (C : Collaborators) (o : options) (st : state) :
  merge o = true ->
  emails o <> [] ->
  exists rest,
    out (snd (gather C o st))
    = out st
      ++ Header (Str "Total Report")
         :: Item (Str ("Users: " +:+ pretty (length (emails o)))) 0
         :: rest
    /\ (total o = false ->
        count_total_headers
          (Header (Str "Total Report")
           :: Item (Str ("Users: " +:+ pretty (length (emails o)))) 0
           :: rest) = 1%nat).
Proof.
  intros Hm Hne. unfold gather.
  destruct (emails o) as [| e1 es]; [destruct (Hne eq_refl) |].
  clear Hne. cbn [map]. cbv beta iota.
  set (users := {| email := e1 |} :: map (fun e => {| email := e |}) es).
  assert (Hlen : length users = length (e1 :: es))
    by (unfold users; cbn [length]; rewrite length_map; reflexivity).
  unfold bind, when. rewrite Hm. cbn [orb].
  unfold emit at 1 2. cbv beta iota. rewrite add_out_add_out.
  cbn [app]. rewrite Hlen.
  set (st1 := add_out _ st).
  destruct (check_users_out C o users (UserStats_new C None o) [] st1)
    as (evs & Hout & Hall).
  destruct (check_users C o users (UserStats_new C None o) [] st1)
    as [[e | r] st2] eqn:Hrun; cbn [snd] in Hout.
  - exists evs. split.
    + cbn [snd]. rewrite Hout. unfold st1. cbn [out add_out].
      rewrite <- app_assoc. reflexivity.
    + intros _. change (S (count_total_headers evs) = 1%nat).
      rewrite (count_total_headers_detail evs Hall). reflexivity.
  - destruct (total o) eqn:Ht.
    + eexists. split; [| intros Hf; discriminate Hf].
      unfold emit, ret. cbv beta iota. rewrite call_run.
      destruct (snd (show C (snd r))) as [e | []];
        cbn [snd out add_out]; rewrite Hout; unfold st1;
        cbn [out add_out]; rewrite <- !app_assoc; reflexivity.
    + exists (evs ++ map PluginOut (fst (show C (snd r)))).
      split.
      * unfold ret. cbv beta iota. rewrite call_run.
        destruct (snd (show C (snd r))) as [e | []];
          cbn [snd out add_out]; rewrite Hout; unfold st1;
          cbn [out add_out]; rewrite <- !app_assoc; reflexivity.
      * intros _.
        change (S (count_total_headers
                     (evs ++ map PluginOut (fst (show C (snd r))))) = 1%nat).
        rewrite count_total_headers_app,
          (count_total_headers_detail evs Hall),
          (count_total_headers_detail _ (plugin_out_detail _)).
        reflexivity.
Qed.

Lemma merge_banner_first_witness :
  exists rest,
    out (snd (gather Reference.C0 Reference.o_merge Reference.st0))
    = Header (Str "Total Report") :: Item (Str "Users: 2") 0 :: rest
    /\ (total Reference.o_merge = false ->
        count_total_headers
          (Header (Str "Total Report") :: Item (Str "Users: 2") 0 :: rest)
        = 1%nat).
Proof.
  apply (merge_banner_first Reference.C0 Reference.o_merge Reference.st0);
    [reflexivity | discriminate].
Defined.

(** C7, as stated, fails when total mode is requested too: the header is
    emitted before the users and once more before the team report. *)
Lemma merge_total_header_twice :
  exists r st',
    main Reference.C0
      (Some (ArgString "--merge --total --email a@x.com,b@y.com today"))
      Reference.st0
    = (inr r, st')
    /\ count_total_headers (out st') = 2%nat.
Proof.
  eexists. eexists. split; [vm_compute; reflexivity | reflexivity].
Qed.

(** ** Output is only ever appended *)

Lemma gather_appends (C : Collaborators) (o : options) (st : state) :
  exists evs, out (snd (gather C o st)) = out st ++ evs.
Proof.
  unfold gather.
  destruct (emails o) as [| e1 es];
    [exists []; symmetry; apply app_nil_r |].
  cbn [map]. cbv beta iota.
  set (users := {| email := e1 |} :: map (fun e => {| email := e |}) es).
  unfold bind, when.
  destruct (merge o), (total o); cbn [orb]; unfold emit, ret;
    cbv beta iota; rewrite ?add_out_add_out;
    match goal with
    | |- context [check_users C o users ?t ?g ?s] =>
        destruct (check_users_out C o users t g s) as (evs & Hout & _);
        destruct (check_users C o users t g s) as [[e | r] st2]
    end;
    cbn [snd] in Hout |- *;
    rewrite ?call_run;
    try match goal with
      | |- context [snd (show C ?x)] =>
          destruct (snd (show C x)) as [e | []]
      end;
    eexists; cbn [snd out add_out]; rewrite Hout; cbn [out add_out];
    rewrite <- ?app_assoc; reflexivity.
Qed.

Lemma parse_appends (C : Collaborators) (arguments : option argval)
    (st : state) :
  exists evs, out (snd (parse C arguments st)) = out st ++ evs.
Proof.
  rewrite parse_run. cbn zeta.
  destruct (Optparse.process_args C _ [] (Optparse.defaults C))
    as [v args | | why]; [| eexists; reflexivity | eexists; reflexivity].
  rewrite parse_options_run.
  destruct (resolve_emails C v) as [e | em];
    [exists []; cbn [snd]; rewrite out_after_debug, app_nil_r;
     reflexivity |].
  destruct (resolve_range C v args) as [e | [[s u] p]];
    [exists []; cbn [snd]; rewrite out_after_debug, app_nil_r;
     reflexivity |].
  destruct (s <? u).
  - eexists. cbn [snd out add_out]. rewrite out_after_debug. reflexivity.
  - exists []. cbn [snd]. rewrite out_after_debug, app_nil_r. reflexivity.
Qed.

Lemma main_body_appends (C : Collaborators) (arguments : option argval)
    (st : state) :
  exists evs, out (snd (main_body C arguments st)) = out st ++ evs.
Proof.
  rewrite main_body_run.
  destruct (parse_appends C arguments (after_init st)) as [evs Hp].
  destruct (parse C arguments (after_init st)) as [[e | o] st1];
    cbn [snd] in Hp.
  - eexists. cbn [snd]. rewrite Hp. cbn [after_init out add_out
                                          with_arguments].
    rewrite <- app_assoc. reflexivity.
  - destruct (gather_appends C o st1) as [evs' Hg].
    eexists. rewrite Hg, Hp. cbn [after_init out add_out with_arguments].
    rewrite <- !app_assoc. reflexivity.
Qed.

(** C8, as amended. When the body of [main] fails with a credential
    error, [main] logs the fixed message and exits with code 2; what was
    emitted before the failure (the banner, the headers, the reports of
    the users already done) stays in the output, and the log line is all
    that is added after it. *)
Theorem credential_failure_exit (C : Collaborators)
    (arguments : option argval) (st : state) (m : string) (st' : state) :
  main_body C arguments st = (inl (GSSError m), st') ->
  main C arguments st
  = (inl (SystemExit 2),
     add_out [LogError "Kerberos authentication failed. Try kinit."] st')
  /\ exists evs,
       out st' = out st ++ evs
       /\ out (snd (main C arguments st))
          = out st ++ evs
            ++ [LogError "Kerberos authentication failed. Try kinit."].
Proof.
  intros H. rewrite main_run, H.
  destruct (main_body_appends C arguments st) as [evs Hevs].
  rewrite H in Hevs. cbn [snd] in Hevs.
  split; [reflexivity |].
  exists evs. split; [exact Hevs |].
  cbn [handler bind emit raise snd out add_out]. rewrite Hevs.
  rewrite <- app_assoc. reflexivity.
Qed.

Lemma credential_failure_exit_witness :
  fst (main Reference.C_denied (Some (ArgList [])) Reference.st0)
  = inl (SystemExit 2).
Proof.
  pose proof (credential_failure_exit Reference.C_denied (Some (ArgList []))
                Reference.st0 "No credentials cache found"
                (snd (main_body Reference.C_denied (Some (ArgList []))
                        Reference.st0))) as H.
  destruct H as [H _]; [vm_compute; reflexivity |].
  rewrite H. reflexivity.
Defined.

(** C8, as stated, fails: the credentials are refused for the second
    address, the exit code is 2, and the banner, both headers and the
    report of the first address have been written. *)
Lemma credential_failure_partial_output :
  fst (main Reference.C_denied (Some (ArgList [])) Reference.st0)
  = inl (SystemExit 2)
  /\ List.filter is_report
       (out (snd (main Reference.C_denied (Some (ArgList []))
                    Reference.st0)))
     = [Print "Status report for this week (2024-03-11 to 2024-03-17).";
        Header (OfUser {| email := "a@x.com" |});
        PluginOut "work of a@x.com";
        Header (OfUser {| email := "b@y.com" |})].
Proof. split; vm_compute; reflexivity. Qed.

(** ** The state after a failed [parse] *)

(** C9, as amended. When [parse] fails, the [arguments] of the object are
    the given ones (split into tokens when they were a string, the old
    ones when none were given); the logging level is the debug level when
    [--debug] was among the parsed options and is unchanged otherwise; and
    nothing is emitted, but for the help or usage message of the option
    parser when it is the one that refuses the arguments: no banner and no
    log line. *)
Theorem parse_failure_state (C : Collaborators)
    (arguments : option argval) (st : state) (e : exn) (st' : state) :
  parse C arguments st = (inl e, st') ->
  let a := stored_arguments (self_arguments st) arguments in
  let r := Optparse.process_args C (tokens C a) [] (Optparse.defaults C) in
  self_arguments st' = a
  /\ log_level st'
     = match r with
       | Optparse.Parsed v _ =>
           if v_debug v then LOG_DEBUG C else log_level st
       | _ => log_level st
       end
  /\ out st'
     = out st
       ++ match r with
          | Optparse.Parsed _ _ => []
          | Optparse.Helped => [ParserHelp]
          | Optparse.Failed why => [ParserUsage why]
          end.
Proof.
  rewrite parse_run. cbv zeta.
  destruct (Optparse.process_args C _ [] (Optparse.defaults C))
    as [v args | | why].
  - rewrite parse_options_run.
    assert (Hst : forall x : exn,
              (inl x : Res options,
               after_debug C v
                 (with_arguments
                    (stored_arguments (self_arguments st) arguments) st))
              = (inl e, st') ->
              self_arguments st'
              = stored_arguments (self_arguments st) arguments
              /\ log_level st'
                 = (if v_debug v then LOG_DEBUG C else log_level st)
              /\ out st' = out st ++ []).
    { intros x H. injection H as _ <-.
      rewrite arguments_after_debug, level_after_debug, out_after_debug,
        app_nil_r.
      repeat split; reflexivity. }
    destruct (resolve_emails C v) as [x | em]; [apply Hst |].
    destruct (resolve_range C v args) as [x | [[s u] p]]; [apply Hst |].
    destruct (s <? u); [discriminate | apply Hst].
  - intros H. injection H as _ <-. repeat split; reflexivity.
  - intros H. injection H as _ <-. repeat split; reflexivity.
Qed.

Lemma parse_failure_state_witness :
  self_arguments
    (snd (parse Reference.C0
            (Some (ArgString "--debug --since 2024-01-10 --until 2024-01-01"))
            Reference.st0))
  = Some (ArgList ["--debug"; "--since"; "2024-01-10";
                   "--until"; "2024-01-01"])
  /\ log_level
       (snd (parse Reference.C0
               (Some (ArgString
                        "--debug --since 2024-01-10 --until 2024-01-01"))
               Reference.st0))
     = 10
  /\ out
       (snd (parse Reference.C0
               (Some (ArgString
                        "--debug --since 2024-01-10 --until 2024-01-01"))
               Reference.st0))
     = [].
Proof.
  apply (parse_failure_state Reference.C0
           (Some (ArgString "--debug --since 2024-01-10 --until 2024-01-01"))
           Reference.st0
           (RuntimeError "Invalid date range (2024-01-10 to 2024-01-01)")).
  vm_compute. reflexivity.
Defined.

(** C9, as stated, fails: [--debug] with an invalid range makes [parse]
    fail, and the logging level and the stored arguments are no longer
    what they were. *)
Lemma parse_failure_mutates :
  exists e st',
    parse Reference.C0
      (Some (ArgString "--debug --since 2024-01-10 --until 2024-01-01"))
      Reference.st0
    = (inl e, st')
    /\ log_level st' <> log_level Reference.st0
    /\ self_arguments st' <> self_arguments Reference.st0.
Proof.
  eexists. eexists. split; [vm_compute; reflexivity |].
  split; discriminate.
Qed.


(** * Further properties *)

(** ** The tokens of the period *)

(** X1. The period depends on the tokens only through which of [today],
    [year], [quarter], [month] and [last] are among them: their order,
    repetitions, the token [week] and unknown tokens change nothing. *)
Theorem time_period_keywords (C : Collaborators) (a b : list string) :
  (forall k, k ∈ keywords -> (k ∈ a <-> k ∈ b)) ->
  time_period C a = time_period C b.
Proof.
  intros H. unfold time_period.
  assert (Hk : forall k, k ∈ keywords ->
                 bool_decide (k ∈ a) = bool_decide (k ∈ b)).
  { intros k Hin. apply bool_decide_ext, H, Hin. }
  rewrite (Hk "today"), (Hk "year"), (Hk "quarter"), (Hk "month"),
    (Hk "last") by by_decide.
  reflexivity.
Qed.

Lemma time_period_keywords_witness :
  time_period Reference.C0 ["week"; "last"; "month"]
  = time_period Reference.C0 ["month"; "please"; "last"; "last"].
Proof.
  apply time_period_keywords.
  intros k Hk. unfold keywords in Hk.
  repeat (apply elem_of_cons in Hk as [-> | Hk]; [by_decide |]).
  apply elem_of_nil in Hk. destruct Hk.
Defined.

(** ** The option [all] *)

(** X2. For every schema: [all] is true when no flag of the schema is
    set; it is false as soon as the flag of a stat is set, and as soon as
    the flag of a group that has at least one stat is set. *)
Theorem all_of_selection (groups : list StatsGroup) (opt : Values) :
  ((forall g, g ∈ groups ->
      getattr opt (group_dest g) = false
      /\ forall s, s ∈ group_stats g -> getattr opt (stat_dest s) = false) ->
   compute_all groups opt = true) /\
  (forall g s, g ∈ groups -> s ∈ group_stats g ->
     getattr opt (stat_dest s) = true ->
     compute_all groups opt = false) /\
  (forall g, g ∈ groups -> group_stats g <> [] ->
     getattr opt (group_dest g) = true ->
     compute_all groups opt = false).
Proof.
  split; [| split].
  - intros H. apply compute_all_true. intros g s Hg Hs.
    destruct (H g Hg) as [H1 H2]. split; [apply H2; exact Hs | exact H1].
  - intros g s Hg Hs Hset. apply not_true_is_false. intros Hall.
    destruct (proj1 (compute_all_true groups opt) Hall g s Hg Hs)
      as [H1 _].
    rewrite H1 in Hset. discriminate Hset.
  - intros g Hg Hne Hset. apply not_true_is_false. intros Hall.
    destruct (group_stats g) as [| s0 l] eqn:E; [destruct (Hne eq_refl) |].
    destruct (proj1 (compute_all_true groups opt) Hall g s0 Hg) as [_ H2].
    { rewrite E. apply list_elem_of_here. }
    rewrite H2 in Hset. discriminate Hset.
Qed.

Lemma all_of_selection_witness :
  compute_all [Reference.git] (Optparse.defaults Reference.C0) = true
  /\ compute_all [Reference.git]
       (Optparse.set_flags {["git_merges"]}
          (Optparse.defaults Reference.C0)) = false
  /\ compute_all [Reference.git]
       (Optparse.set_flags {["git"]} (Optparse.defaults Reference.C0))
     = false.
Proof.
  split; [| split].
  - apply (all_of_selection [Reference.git]
             (Optparse.defaults Reference.C0)).
    intros g Hg. apply list_elem_of_singleton in Hg. subst g.
    split; [reflexivity |].
    intros s Hs. unfold Reference.git in Hs. cbn [group_stats] in Hs.
    repeat (apply elem_of_cons in Hs as [-> | Hs]; [reflexivity |]).
    apply elem_of_nil in Hs. destruct Hs.
  - apply (proj1 (proj2 (all_of_selection [Reference.git] _))
             Reference.git
             {| stat_flag := "--git-merges"; stat_dest := "git_merges" |});
      [apply list_elem_of_here
      | apply list_elem_of_further, list_elem_of_here
      | reflexivity].
  - apply (proj2 (proj2 (all_of_selection [Reference.git] _))
             Reference.git);
      [apply list_elem_of_here | discriminate | reflexivity].
Defined.

(** ** The arguments of [parse] *)

Lemma no_space_app (a b : string) :
  no_space a = true -> no_space b = true -> no_space (a +:+ b) = true.
Proof.
  intros Ha Hb. induction a as [| c a IH]; [exact Hb |].
  cbn [no_space] in Ha. apply andb_prop in Ha as [Hc Ha].
  change (negb (Text.is_space c) && no_space (a +:+ b) = true).
  rewrite Hc, (IH Ha). reflexivity.
Qed.

Lemma words_go_word (w : string) :
  forall rest cur : string,
    no_space w = true ->
    Text.words_go (w +:+ rest) cur = Text.words_go rest (cur +:+ w).
Proof.
  induction w as [| c w IH]; intros rest cur Hw.
  - rewrite append_nil_r. reflexivity.
  - cbn [no_space] in Hw. apply andb_prop in Hw as [Hc Hw].
    apply negb_true_iff in Hc.
    change (String c w +:+ rest) with (String c (w +:+ rest)).
    cbn [Text.words_go]. rewrite Hc, (IH rest _ Hw), append_assoc.
    reflexivity.
Qed.

Lemma py_split_join (l : list string) :
  Forall (fun t => word t = true) l ->
  Text.py_split (Text.join " " l) = l.
Proof.
  unfold Text.py_split.
  induction 1 as [| a l Ha Hl IH]; [reflexivity |].
  unfold word in Ha. apply andb_prop in Ha as [Hne Hns].
  apply negb_true_iff in Hne.
  destruct l as [| b l].
  - cbn [Text.join]. rewrite <- (append_nil_r a) at 1.
    rewrite (words_go_word a EmptyString EmptyString Hns).
    change (EmptyString +:+ a) with a. cbn [Text.words_go].
    rewrite Hne. reflexivity.
  - change (Text.join " " (a :: b :: l))
      with (a +:+ String " " (Text.join " " (b :: l))).
    rewrite (words_go_word a _ EmptyString Hns).
    change (EmptyString +:+ a) with a. cbn [Text.words_go].
    change (Text.is_space " ") with true. cbv beta iota.
    rewrite Hne, IH. reflexivity.
Qed.

Lemma words_go_words (s : string) :
  forall cur : string,
    no_space cur = true ->
    Forall (fun t => word t = true) (Text.words_go s cur).
Proof.
  assert (Hcur : forall cur,
            no_space cur = true ->
            Forall (fun t => word t = true)
              (if String.eqb cur EmptyString then [] else [cur])).
  { intros cur Hns. destruct (String.eqb cur EmptyString) eqn:E;
      constructor; [| constructor].
    unfold word. rewrite E, Hns. reflexivity. }
  induction s as [| c s IH]; intros cur Hns; cbn [Text.words_go].
  - apply Hcur, Hns.
  - destruct (Text.is_space c) eqn:Hc.
    + apply Forall_app. split; [apply Hcur, Hns | apply IH; reflexivity].
    + apply IH, no_space_app; [exact Hns |].
      cbn [no_space]. rewrite Hc. reflexivity.
Qed.

(** X3. A string given as arguments is handled as the list of its
    words: [parse] of the string is [parse] of that list, every word is
    non-empty and free of whitespace, and for a list of such words
    [parse] of the words joined by a space is [parse] of the list. *)
Theorem parse_string_arguments (C : Collaborators) :
  (forall s st,
     parse C (Some (ArgString s)) st
     = parse C (Some (ArgList (Text.py_split s))) st) /\
  (forall s, Forall (fun t => word t = true) (Text.py_split s)) /\
  (forall l st,
     Forall (fun t => word t = true) l ->
     parse C (Some (ArgString (Text.join " " l))) st
     = parse C (Some (ArgList l)) st).
Proof.
  assert (H1 : forall s st,
            parse C (Some (ArgString s)) st
            = parse C (Some (ArgList (Text.py_split s))) st).
  { intros s st. rewrite !parse_run. reflexivity. }
  split; [exact H1 |]. split.
  - intros s. apply words_go_words. reflexivity.
  - intros l st Hl. rewrite H1, (py_split_join l Hl). reflexivity.
Qed.

Lemma parse_string_arguments_witness :
  parse Reference.C0 (Some (ArgString "--merge last week")) Reference.st0
  = parse Reference.C0 (Some (ArgList ["--merge"; "last"; "week"]))
      Reference.st0.
Proof.
  apply (proj2 (proj2 (parse_string_arguments Reference.C0))
           ["--merge"; "last"; "week"] Reference.st0).
  repeat constructor.
Defined.

Lemma init_then {A : Type} (a : option argval) (k : M A) (st : state) :
  bind (Options_init a) (fun _ => k) st
  = k (add_out [LogDebug "Loading Sample Stats group to build Options"]
         (with_arguments a st)).
Proof. reflexivity. Qed.

(** X4. Arguments given when the object is built and none given to
    [parse] do the same as none at the construction and the same ones
    given to [parse]: the same result, the same state after it. With no
    arguments at either place the tokens are those of [sys.argv], only
    that nothing is stored. *)
Theorem arguments_at_construction (C : Collaborators) (st : state) :
  (forall a,
     bind (Options_init (Some a)) (fun _ => parse C None) st
     = bind (Options_init None) (fun _ => parse C (Some a)) st) /\
  (let r1 := bind (Options_init None) (fun _ => parse C None) st in
   let r2 := bind (Options_init None)
               (fun _ => parse C (Some (ArgList (sys_argv C)))) st in
   fst r1 = fst r2
   /\ out (snd r1) = out (snd r2)
   /\ log_level (snd r1) = log_level (snd r2)
   /\ self_arguments (snd r1) = None).
Proof.
  split.
  - intros a. rewrite !init_then, !parse_run. reflexivity.
  - cbv zeta. rewrite !init_then, !parse_run. cbv zeta.
    cbn [stored_arguments self_arguments add_out with_arguments tokens].
    destruct (Optparse.process_args C (sys_argv C) [] (Optparse.defaults C))
      as [v args | | why]; [| repeat split; reflexivity
                            | repeat split; reflexivity].
    rewrite !parse_options_run.
    destruct (resolve_emails C v) as [e | em];
      [| destruct (resolve_range C v args) as [e | [[s u] p]];
         [| destruct (s <? u)]];
      cbv zeta;
      cbn [fst snd out log_level self_arguments add_out];
      rewrite ?out_after_debug, ?level_after_debug, ?arguments_after_debug;
      repeat split; reflexivity.
Qed.

(** ** Positional arguments *)

Lemma process_args_positional_step (C : Collaborators) (a : string)
    (rest largs : list string) (v : Values) :
  positional a = true ->
  Optparse.process_args C (a :: rest) largs v
  = Optparse.process_args C rest (largs ++ [a]) v.
Proof.
  intros H. destruct a as [| c a']; [reflexivity |].
  destruct c as [[] [] [] [] [] [] [] []]; destruct a';
    try discriminate H; reflexivity.
Qed.

Lemma process_args_positional (C : Collaborators) (l : list string) :
  forall (largs : list string) (v : Values),
    Forall (fun a => positional a = true) l ->
    Optparse.process_args C l largs v = Optparse.Parsed v (largs ++ l).
Proof.
  induction l as [| a l IH]; intros largs v Hl.
  - rewrite app_nil_r. reflexivity.
  - inversion Hl as [| ? ? Ha Hl']; subst.
    rewrite (process_args_positional_step C a l largs v Ha),
      (IH _ v Hl'), <- app_assoc.
    reflexivity.
Qed.

(** X5. A command line without options, every token free of a leading
    dash (the dash alone counts as such a token), leaves every option at
    its default and hands all tokens, in their order, to the period
    resolver: [parse] is lines 91-126 run on the defaults and the
    tokens, and its range is [time_period] of the tokens. *)
Theorem positional_arguments (C : Collaborators) (l : list string)
    (st : state) :
  Forall (fun a => positional a = true) l ->
  Optparse.process_args C l [] (Optparse.defaults C)
  = Optparse.Parsed (Optparse.defaults C) l
  /\ parse C (Some (ArgList l)) st
     = parse_options C (Optparse.defaults C) l
         (with_arguments (Some (ArgList l)) st)
  /\ resolve_range C (Optparse.defaults C) l = time_period C l.
Proof.
  intros Hl.
  pose proof (process_args_positional C l [] (Optparse.defaults C) Hl)
    as Hp.
  cbn [app] in Hp. split; [exact Hp |]. split; [| reflexivity].
  rewrite parse_run. cbv zeta.
  cbn [stored_arguments tokens]. rewrite Hp. reflexivity.
Qed.

Lemma positional_arguments_witness :
  Optparse.process_args Reference.C0 ["last"; "-"; "week"] []
    (Optparse.defaults Reference.C0)
  = Optparse.Parsed (Optparse.defaults Reference.C0) ["last"; "-"; "week"].
Proof.
  apply (positional_arguments Reference.C0 ["last"; "-"; "week"]
           Reference.st0).
  repeat constructor.
Defined.

(** X6. An empty text for [--since] counts as given: the period tokens
    are not looked at, the range starts at 1993-01-01 and, with no
    [--until], ends today; the label is [given date range]. *)
Theorem empty_since_is_given (C : Collaborators) (l : list string)
    (s t : date) :
  Forall (fun a => positional a = true) l ->
  Date_new C "1993-01-01" = inr s ->
  Date_new C "today" = inr t ->
  Optparse.process_args C ("--since=" :: l) [] (Optparse.defaults C)
  = Optparse.Parsed
      (Optparse.set_since (Some EmptyString) (Optparse.defaults C)) l
  /\ resolve_range C
       (Optparse.set_since (Some EmptyString) (Optparse.defaults C)) l
     = inr (s, t + 1, "given date range").
Proof.
  intros Hl Hs Ht. split.
  - change (Optparse.process_args C ("--since=" :: l) []
              (Optparse.defaults C))
      with (Optparse.process_args C l []
              (Optparse.set_since (Some EmptyString)
                 (Optparse.defaults C))).
    rewrite (process_args_positional C l [] _ Hl). reflexivity.
  - unfold resolve_range.
    cbn [v_since v_until Optparse.set_since Optparse.defaults or_default].
    rewrite Hs. cbn [res_bind]. rewrite Ht. reflexivity.
Qed.

Lemma empty_since_is_given_witness :
  resolve_range Reference.C0
    (Optparse.set_since (Some EmptyString)
       (Optparse.defaults Reference.C0)) ["last"; "month"]
  = inr (Calendar.ord 1993 1 1, Reference.today + 1, "given date range").
Proof.
  apply (empty_since_is_given Reference.C0 ["last"; "month"]);
    [repeat constructor | reflexivity | reflexivity].
Defined.

(** ** The order of the failures of [parse] *)

(** X7. A failure of the configured addresses comes first: when no
    [--email] is given and reading the configuration raises, [parse]
    raises that exception before it looks at the dates and before the
    banner, whatever the tokens and the texts of [--since] and [--until]
    are; when the exception is a missing section, [main] ends with the
    four lines of advice and the exit code 3. *)
Theorem config_error_first (C : Collaborators) :
  (forall opt arg st e,
     v_emails opt = [] -> Config_email C = inl e ->
     parse_options C opt arg st = (inl e, after_debug C opt st)) /\
  (forall arguments st v a m,
     Optparse.process_args C (tokens C (stored_arguments None arguments))
       [] (Optparse.defaults C) = Optparse.Parsed v a ->
     v_emails v = [] -> Config_email C = inl (NoSectionError m) ->
     main C arguments st
     = (inl (SystemExit 3),
        add_out
          [LogError m;
           LogError
             "No email provided on the command line or in the config file";
           Info ("Create at least a minimum config file " +:+ CONFIG C
                 +:+ ":");
           Info ("[general]" +:+ Text.newline +:+ "email = "
                 +:+ Text.quote +:+ "My Name" +:+ Text.quote +:+ " <"
                 +:+ getuser C +:+ "@domain.com>")]
          (after_debug C v
             (with_arguments (stored_arguments None arguments)
                (after_init st))))).
Proof.
  assert (H1 : forall opt arg st e,
            v_emails opt = [] -> Config_email C = inl e ->
            parse_options C opt arg st = (inl e, after_debug C opt st)).
  { intros opt arg st e Hnil He. rewrite parse_options_run.
    unfold resolve_emails. rewrite Hnil, He. reflexivity. }
  split; [exact H1 |].
  intros arguments st v a m Hp Hnil He.
  rewrite main_run, main_body_run, parse_run. cbv zeta.
  change (self_arguments (after_init st)) with (@None argval).
  rewrite Hp, (H1 v a _ _ Hnil He).
  unfold handler, bind, emit, raise. rewrite !add_out_add_out.
  reflexivity.
Qed.

Lemma config_error_first_witness :
  fst (main Reference.C_unconfigured
         (Some (ArgString "--since 2024-01-10 --until 2024-01-01"))
         Reference.st0)
  = inl (SystemExit 3).
Proof.
  pose proof (proj2 (config_error_first Reference.C_unconfigured)
                (Some (ArgString "--since 2024-01-10 --until 2024-01-01"))
                Reference.st0
                (Optparse.set_until (Some "2024-01-01")
                   (Optparse.set_since (Some "2024-01-10")
                      (Optparse.defaults Reference.C_unconfigured)))
                [] "No section: 'general'" eq_refl eq_refl eq_refl) as H.
  rewrite H. reflexivity.
Defined.

(** ** Ranges that always or never pass *)

(** X8. The period [today] always passes the range check: with [today]
    among the tokens, no [--since] and no [--until], the addresses
    resolved and the current date readable, [parse] returns the window
    from today to the next day and its banner names today as both
    ends. *)
Theorem today_always_valid (C : Collaborators) (opt : Values)
    (arg : list string) (st : state) (em : list string) (t : date) :
  "today" ∈ arg ->
  v_since opt = None -> v_until opt = None ->
  Date_new C "today" = inr t ->
  resolve_emails C opt = inr em ->
  exists o,
    parse_options C opt arg st
    = (inr o, add_out (parse_events C "today" o) (after_debug C opt st))
    /\ since o = t /\ until o = t + 1
    /\ banner C "today" (since o) (until o)
       = "Status report for today (" +:+ Date_str C t +:+ " to "
         +:+ Calendar.isoformat t +:+ ").".
Proof.
  intros Hin Hs Hu Ht Hem.
  rewrite parse_options_run, Hem.
  unfold resolve_range. rewrite Hs, Hu.
  unfold time_period. rewrite (bool_decide_eq_true_2 _ Hin), Ht.
  cbn [res_bind].
  assert (Hlt : (t <? t + 1) = true) by (apply Z.ltb_lt; lia).
  rewrite Hlt. eexists. split; [reflexivity |].
  split; [reflexivity |]. split; [reflexivity |].
  cbn [since until resolved]. unfold banner.
  replace (t + 1 - 1) with t by lia. reflexivity.
Qed.

Lemma today_always_valid_witness :
  exists o,
    parse_options Reference.C0 (Optparse.defaults Reference.C0)
      ["last"; "today"] Reference.st0
    = (inr o, add_out (parse_events Reference.C0 "today" o) Reference.st0)
    /\ since o = Reference.today /\ until o = Reference.today + 1
    /\ banner Reference.C0 "today" (since o) (until o)
       = "Status report for today (2024-03-15 to 2024-03-15).".
Proof.
  assert (Hin : "today" ∈ ["last"; "today"]) by by_decide.
  exact (today_always_valid Reference.C0 (Optparse.defaults Reference.C0)
           ["last"; "today"] Reference.st0 ["me@example.com"]
           Reference.today Hin eq_refl eq_refl eq_refl eq_refl).
Defined.

(** X9. With one end of the range given and the addresses resolved:
    [--since d] alone is accepted exactly when the date of [d] is not
    after today, and [--until d] alone exactly when the date of [d] is
    not before 1993-01-01 and is not the last date of the calendar,
    9999-12-31, after which no day can be added. *)
Theorem one_sided_ranges (C : Collaborators) (opt : Values)
    (arg : list string) (st : state) (em : list string) (d : string)
    (x : date) :
  resolve_emails C opt = inr em ->
  d <> EmptyString ->
  Date_new C d = inr x ->
  (forall t,
     v_since opt = Some d -> v_until opt = None ->
     Date_new C "today" = inr t ->
     ((exists o st', parse_options C opt arg st = (inr o, st')) <-> x <= t))
  /\
  (forall s0,
     v_since opt = None -> v_until opt = Some d ->
     Date_new C "1993-01-01" = inr s0 ->
     ((exists o st', parse_options C opt arg st = (inr o, st'))
      <-> s0 <= x /\ x < Calendar.MAXORDINAL)).
Proof.
  intros Hem Hd Hx.
  assert (Hor : forall dflt, or_default (Some d) dflt = d).
  { intros dflt. destruct d; [contradiction | reflexivity]. }
  split.
  - intros t Hs Hu Ht. rewrite parse_options_run, Hem.
    rewrite (resolve_range_given C opt arg x t).
    + rewrite until_next_day_ok.
      * cbn [res_bind].
        destruct (Z.ltb_spec x (t + 1)) as [Hlt | Hge].
        -- split; [intros _; lia
                  | intros _; eexists; eexists; reflexivity].
        -- split; [intros (o & st' & H); discriminate H | intros H; lia].
      * unfold until_given. rewrite Hu. discriminate.
    + left. rewrite Hs. discriminate.
    + rewrite Hs, Hor. exact Hx.
    + rewrite Hu. exact Ht.
  - intros s0 Hs Hu Hs0. rewrite parse_options_run, Hem.
    destruct (until_given_text opt d Hd Hu) as [Hg _].
    rewrite (resolve_range_given C opt arg s0 x).
    + destruct (Z.lt_ge_cases x Calendar.MAXORDINAL) as [Hin | Hout].
      * rewrite until_next_day_ok by (intros _; exact Hin).
        cbn [res_bind].
        destruct (Z.ltb_spec s0 (x + 1)) as [Hlt | Hge].
        -- split; [intros _; lia
                  | intros _; eexists; eexists; reflexivity].
        -- split; [intros (o & st' & H); discriminate H | intros H; lia].
      * rewrite (until_next_day_overflow opt x Hg Hout). cbn [res_bind].
        split; [intros (o & st' & H); discriminate H | intros H; lia].
    + right. rewrite Hu. discriminate.
    + rewrite Hs. exact Hs0.
    + rewrite Hu, Hor. exact Hx.
Qed.

Lemma one_sided_ranges_witness :
  (exists o st',
     parse_options Reference.C0
       (Optparse.set_since (Some "2024-03-15")
          (Optparse.defaults Reference.C0)) [] Reference.st0
     = (inr o, st'))
  /\ ~ (exists o st',
          parse_options Reference.C0
            (Optparse.set_until (Some "1992-12-31")
               (Optparse.defaults Reference.C0)) [] Reference.st0
          = (inr o, st'))
  /\ ~ (exists o st',
          parse_options Reference.C0
            (Optparse.set_until (Some "9999-12-31")
               (Optparse.defaults Reference.C0)) [] Reference.st0
          = (inr o, st')).
Proof.
  split; [| split].
  - destruct (one_sided_ranges Reference.C0
                (Optparse.set_since (Some "2024-03-15")
                   (Optparse.defaults Reference.C0)) [] Reference.st0
                ["me@example.com"] "2024-03-15" Reference.today
                eq_refl) as [H _]; [discriminate | reflexivity |].
    apply (H Reference.today eq_refl eq_refl eq_refl).
    vm_compute. discriminate.
  - destruct (one_sided_ranges Reference.C0
                (Optparse.set_until (Some "1992-12-31")
                   (Optparse.defaults Reference.C0)) [] Reference.st0
                ["me@example.com"] "1992-12-31"
                (Calendar.ord 1992 12 31)
                eq_refl) as [_ H]; [discriminate | reflexivity |].
    intros Hok.
    apply (H (Calendar.ord 1993 1 1) eq_refl eq_refl eq_refl) in Hok.
    destruct Hok as [Hok _]. vm_compute in Hok. apply Hok. reflexivity.
  - destruct (one_sided_ranges Reference.C0
                (Optparse.set_until (Some "9999-12-31")
                   (Optparse.defaults Reference.C0)) [] Reference.st0
                ["me@example.com"] "9999-12-31"
                (Calendar.ord 9999 12 31)
                eq_refl) as [_ H]; [discriminate | reflexivity |].
    intros Hok.
    apply (H (Calendar.ord 1993 1 1) eq_refl eq_refl eq_refl) in Hok.
    destruct Hok as [_ Hok]. vm_compute in Hok. discriminate Hok.
Defined.

(** ** When there is nobody to report on *)

Lemma split_go_not_nil (s : string) :
  forall (sk : bool) (cur ws : string), Text.split_go s sk cur ws <> [].
Proof.
  induction s as [| c s IH]; intros sk cur ws; cbn [Text.split_go].
  - discriminate.
  - destruct (Text.is_comma c); [discriminate |].
    destruct (Text.is_space c); [destruct sk |]; apply IH.
Qed.

Lemma utils_split_nil (e : email_value) :
  utils_split e = [] <-> e = EmailList [].
Proof.
  split; [| intros ->; reflexivity].
  destruct e as [s | l]; cbn [utils_split].
  - intros H. destruct (split_go_not_nil _ _ _ _ H).
  - destruct l as [| a l]; [reflexivity |].
    change ((a :: l) ≫= Text.re_split)
      with (Text.re_split a ++ (l ≫= Text.re_split)).
    intros H. apply app_eq_nil in H as [H _].
    destruct (split_go_not_nil _ _ _ _ H).
Qed.

(** X10. The list of addresses that [parse] returns is empty in one case
    only: no [--email] was given and the configured value is an empty
    list. A configured string, the empty one included, always gives at
    least one address, and so does every [--email]. *)
Theorem no_address_iff (C : Collaborators) (opt : Values) :
  (resolve_emails C opt = inr []
   <-> v_emails opt = [] /\ Config_email C = inr (EmailList [])) /\
  (forall s, utils_split (EmailStr s) <> []).
Proof.
  split.
  - unfold resolve_emails. destruct (v_emails opt) as [| a l] eqn:E.
    + destruct (Config_email C) as [x | e]; cbn [res_bind].
      * split; [discriminate | intros [_ H]; discriminate H].
      * split.
        -- intros H.
           assert (H' : utils_split e = []) by (injection H as H; exact H).
           apply utils_split_nil in H'. subst e. split; reflexivity.
        -- intros [_ H]. injection H as ->. reflexivity.
    + cbn [res_bind]. split.
      * intros H.
        assert (H' : utils_split (EmailList (a :: l)) = [])
          by (injection H as H; exact H).
        apply utils_split_nil in H'. discriminate H'.
      * intros [H _]. discriminate H.
  - intros s H. apply utils_split_nil in H. discriminate H.
Qed.

Lemma no_address_iff_witness :
  resolve_emails Reference.C_nobody (Optparse.defaults Reference.C_nobody)
  = inr [].
Proof.
  apply (proj1 (no_address_iff Reference.C_nobody
                  (Optparse.defaults Reference.C_nobody))).
  split; reflexivity.
Defined.

(** ** What [main] leaves of the state *)

Lemma check_users_frame (C : Collaborators) (o : options)
    (users : list User) :
  forall (team : Stats C) (gathered : list (Stats C)) (st : state),
    log_level (snd (check_users C o users team gathered st)) = log_level st
    /\ self_arguments (snd (check_users C o users team gathered st))
       = self_arguments st.
Proof.
  induction users as [| user rest IH]; intros team gathered st.
  - split; reflexivity.
  - rewrite check_users_cons. cbv zeta.
    destruct (snd (check C (UserStats_new C (Some user) o))) as [e | us];
      [split; reflexivity |].
    destruct (snd (merge_stats C team us)) as [e | team'];
      [split; reflexivity |].
    destruct (IH team' (gathered ++ [us])
                (add_out
                   (map PluginOut (fst (merge_stats C team us)))
                   (add_out
                      ([if merge o then Item (OfUser user) 1
                        else Header (OfUser user);
                        Collect user]
                       ++ map PluginOut
                            (fst (check C
                                    (UserStats_new C (Some user) o))))
                      st))) as [H1 H2].
    rewrite H1, H2. split; reflexivity.
Qed.

Lemma gather_frame (C : Collaborators) (o : options) (st : state) :
  log_level (snd (gather C o st)) = log_level st
  /\ self_arguments (snd (gather C o st)) = self_arguments st.
Proof.
  unfold gather.
  destruct (emails o) as [| e1 es]; [split; reflexivity |].
  cbn [map]. cbv beta iota.
  set (users := {| email := e1 |} :: map (fun e => {| email := e |}) es).
  unfold bind, when.
  destruct (merge o), (total o); cbn [orb]; unfold emit, ret;
    cbv beta iota; rewrite ?add_out_add_out;
    match goal with
    | |- context [check_users C o users ?t ?g ?s] =>
        destruct (check_users_frame C o users t g s) as [H1 H2];
        destruct (check_users C o users t g s) as [[e | r] st2]
    end;
    cbn [snd] in H1, H2 |- *;
    rewrite ?call_run;
    try match goal with
      | |- context [snd (show C ?x)] =>
          destruct (snd (show C x)) as [e | []]
      end;
    cbn [snd log_level self_arguments add_out]; rewrite H1, H2;
    split; reflexivity.
Qed.

Lemma handler_frame (C : Collaborators) (A : Type) (e : exn)
    (st : state) :
  log_level (snd (@handler C A e st)) = log_level st
  /\ self_arguments (snd (@handler C A e st)) = self_arguments st.
Proof. destruct e; split; reflexivity. Qed.

Lemma parse_frame (C : Collaborators) (arguments : option argval)
    (st : state) :
  let a := stored_arguments (self_arguments st) arguments in
  log_level (snd (parse C arguments st))
  = match Optparse.process_args C (tokens C a) [] (Optparse.defaults C) with
    | Optparse.Parsed v _ => if v_debug v then LOG_DEBUG C else log_level st
    | _ => log_level st
    end
  /\ self_arguments (snd (parse C arguments st)) = a.
Proof.
  cbv zeta. rewrite parse_run. cbv zeta.
  destruct (Optparse.process_args C _ [] (Optparse.defaults C))
    as [v args | | why]; [| split; reflexivity | split; reflexivity].
  rewrite parse_options_run.
  destruct (resolve_emails C v) as [e | em];
    [| destruct (resolve_range C v args) as [e | [[s u] p]];
       [| destruct (s <? u)]];
    cbv zeta; cbn [snd log_level self_arguments add_out];
    rewrite level_after_debug, arguments_after_debug;
    split; reflexivity.
Qed.

(** X11. Whatever [main] does, returning or failing, afterwards the
    logging level is the debug level when [--debug] was among the parsed
    options and is otherwise what it was, and the arguments the object
    holds are the ones [main] was given, a string split into its
    words. *)
Theorem main_frame (C : Collaborators) (arguments : option argval)
    (st : state) :
  log_level (snd (main C arguments st))
  = match Optparse.process_args C
            (tokens C (stored_arguments None arguments)) []
            (Optparse.defaults C) with
    | Optparse.Parsed v _ => if v_debug v then LOG_DEBUG C else log_level st
    | _ => log_level st
    end
  /\ self_arguments (snd (main C arguments st))
     = stored_arguments None arguments.
Proof.
  pose proof (parse_frame C arguments (after_init st)) as Hp.
  cbv zeta in Hp.
  change (self_arguments (after_init st)) with (@None argval) in Hp.
  change (log_level (after_init st)) with (log_level st) in Hp.
  destruct Hp as [Hl Ha].
  rewrite main_run, main_body_run.
  destruct (parse C arguments (after_init st)) as [[e | o] st1];
    cbn [snd] in Hl, Ha.
  - destruct (handler_frame C (list (Stats C) * Stats C) e st1)
      as [H1 H2].
    rewrite H1, H2, Hl, Ha. split; reflexivity.
  - destruct (gather_frame C o st1) as [H1 H2].
    destruct (gather C o st1) as [[e | r] st2]; cbn [snd] in H1, H2.
    + destruct (handler_frame C (list (Stats C) * Stats C) e st2)
        as [H3 H4].
      rewrite H3, H4, H1, H2, Hl, Ha. split; reflexivity.
    + cbn [snd]. rewrite H1, H2, Hl, Ha. split; reflexivity.
Qed.

(** X12. When the option parser refuses the command line, [main] lets
    its exit through: the usage message and the exit code 2 for a bad
    option, the help text and the exit code 0 for [--help], with nothing
    logged by the handlers and no banner; the exit code 2 is the one of
    a credential failure too. *)
Theorem main_parser_exit (C : Collaborators) (arguments : option argval)
    (st : state) :
  let a := stored_arguments None arguments in
  let r := Optparse.process_args C (tokens C a) [] (Optparse.defaults C) in
  (forall why,
     r = Optparse.Failed why ->
     main C arguments st
     = (inl (SystemExit 2),
        add_out [ParserUsage why] (with_arguments a (after_init st)))) /\
  (r = Optparse.Helped ->
   main C arguments st
   = (inl (SystemExit 0),
      add_out [ParserHelp] (with_arguments a (after_init st)))).
Proof.
  cbv zeta. split.
  - intros why H. rewrite main_run, main_body_run, parse_run. cbv zeta.
    change (self_arguments (after_init st)) with (@None argval).
    rewrite H. reflexivity.
  - intros H. rewrite main_run, main_body_run, parse_run. cbv zeta.
    change (self_arguments (after_init st)) with (@None argval).
    rewrite H. reflexivity.
Qed.

Lemma main_parser_exit_witness :
  fst (main Reference.C0 (Some (ArgString "--no-such-option"))
         Reference.st0)
  = inl (SystemExit 2)
  /\ fst (main Reference.C0 (Some (ArgString "last week -h"))
            Reference.st0)
     = inl (SystemExit 0).
Proof.
  split.
  - rewrite (proj1 (main_parser_exit Reference.C0
                      (Some (ArgString "--no-such-option")) Reference.st0)
               (NoSuchOption "--no-such-option") eq_refl).
    reflexivity.
  - rewrite (proj2 (main_parser_exit Reference.C0
                      (Some (ArgString "last week -h")) Reference.st0)
               eq_refl).
    reflexivity.
Defined.

(** ** What a successful run returns and writes *)

Lemma add_out_nil (st : state) : add_out [] st = st.
Proof. destruct st. unfold add_out. cbn. rewrite app_nil_r. reflexivity. Qed.

Lemma filter_plugin_out (f : event -> bool) (ls : list string) :
  f = is_user_line \/ f = is_collect ->
  List.filter f (map PluginOut ls) = [].
Proof.
  intros [-> | ->]; induction ls as [| x ls IH]; try reflexivity;
    cbn [map List.filter]; exact IH.
Qed.

(** A loop that ends well: the sessions added are those of the users, in
    their order, the team is merged from them, and every user has
    written its line and entered its collection once. *)
Lemma check_users_success (C : Collaborators) (o : options)
    (users : list User) :
  forall (team : Stats C) (gathered : list (Stats C)) (st : state)
         (r : list (Stats C) * Stats C) (st' : state),
    check_users C o users team gathered st = (inr r, st') ->
    exists l evs,
      fst r = gathered ++ l
      /\ Forall2 (fun u s => checked C o (email u) s) users l
      /\ merge_all C team l = inr (snd r)
      /\ out st' = out st ++ evs
      /\ Forall (fun e => is_user_detail e = true) evs
      /\ List.filter is_user_line evs = map (user_line o) users
      /\ List.filter is_collect evs = map Collect users.
Proof.
  induction users as [| user rest IH]; intros team gathered st r st' H.
  - injection H as <- <-. exists [], [].
    cbn [fst snd merge_all map List.filter]. rewrite !app_nil_r.
    repeat split; constructor.
  - rewrite check_users_cons in H. cbv zeta in H.
    destruct (check C (UserStats_new C (Some user) o)) as [ls cres] eqn:Ec.
    cbn [fst snd] in H.
    destruct cres as [e | us]; [discriminate H |].
    destruct (merge_stats C team us) as [ls' mres] eqn:Em.
    cbn [fst snd] in H.
    destruct mres as [e | team']; [discriminate H |].
    destruct (IH team' (gathered ++ [us]) _ r st' H)
      as (l & evs & Hg & Hall & Hm & Hout & Hdet & Hline & Hcol).
    exists (us :: l),
      (([user_line o user; Collect user] ++ map PluginOut ls)
       ++ map PluginOut ls' ++ evs).
    split; [rewrite Hg, <- app_assoc; reflexivity |].
    split.
    { constructor; [| exact Hall].
      unfold checked. destruct user as [e]. cbn [email]. rewrite Ec.
      reflexivity. }
    split; [cbn [merge_all]; rewrite Em; exact Hm |].
    split.
    { rewrite Hout. cbn [out add_out]. unfold user_line.
      rewrite <- !app_assoc. reflexivity. }
    split.
    { apply Forall_app. split.
      - apply Forall_app. split; [| apply plugin_out_detail].
        unfold user_line. destruct (merge o); repeat constructor.
      - apply Forall_app. split; [apply plugin_out_detail | exact Hdet]. }
    split.
    { rewrite !List.filter_app, !filter_plugin_out, Hline
        by (left; reflexivity).
      unfold user_line. destruct (merge o); reflexivity. }
    rewrite !List.filter_app, !filter_plugin_out, Hcol
      by (right; reflexivity).
    unfold user_line. destruct (merge o); reflexivity.
Qed.

Lemma Forall2_map_users {B : Type} (P : string -> B -> Prop)
    (es : list string) :
  forall l : list B,
    Forall2 (fun u s => P (email u) s)
      (map (fun e => {| email := e |}) es) l ->
    Forall2 P es l.
Proof.
  induction es as [| e es IH]; intros l H; inversion H; subst;
    constructor; [assumption | apply IH; assumption].
Qed.

(** How a successful [gather] comes about. *)
Lemma gather_success (C : Collaborators) (o : options) (st : state)
    (r : list (Stats C) * Stats C) (st' : state) :
  gather C o st = (inr r, st') ->
  emails o <> []
  /\ exists st1,
       check_users C o (map (fun e => {| email := e |}) (emails o))
         (UserStats_new C None o) [] (add_out (opening_events o) st)
       = (inr r, st1)
       /\ out st' = out st1 ++ closing_events C o (snd r).
Proof.
  unfold gather, opening_events, closing_events.
  destruct (emails o) as [| e1 es] eqn:E; [discriminate |].
  rewrite <- E.
  assert (Hu : map (fun e => {| email := e |}) (emails o)
               = {| email := e1 |} :: map (fun e => {| email := e |}) es)
    by (rewrite E; reflexivity).
  rewrite Hu. cbv beta iota. rewrite <- Hu.
  rewrite length_map.
  intros H. split; [rewrite E; discriminate |].
  unfold bind, when in H.
  destruct (merge o), (total o); cbn [orb] in H |- *;
    unfold emit, ret in H; cbv beta iota in H;
    rewrite ?add_out_add_out in H; cbn [app] in H;
    rewrite ?add_out_nil;
    match type of H with
    | context [check_users C o ?us ?t ?g ?s] =>
        destruct (check_users C o us t g s) as [[e | r'] st1] eqn:Hrun
    end;
    try discriminate H;
    rewrite ?call_run in H;
    try match type of H with
      | context [snd (show C ?x)] =>
          destruct (snd (show C x)) as [e | []] eqn:Hshow
      end;
    try discriminate H;
    injection H as <- <-; exists st1;
    (split; [reflexivity |]);
    cbn [out add_out app]; rewrite <- ?app_assoc, ?app_nil_r;
    reflexivity.
Qed.

(** X13. When the body of [main] comes to its end, it returns one
    session for every address, in the order of the addresses, each being
    what the collection left of the fresh session of that address; and
    the team session is the fresh one of the options with these merged
    into it one after the other. There is at least one address. *)
Theorem gather_returns (C : Collaborators) (o : options) (st : state)
    (gathered : list (Stats C)) (team : Stats C) (st' : state) :
  gather C o st = (inr (gathered, team), st') ->
  Forall2 (checked C o) (emails o) gathered
  /\ merge_all C (UserStats_new C None o) gathered = inr team
  /\ length gathered = length (emails o)
  /\ emails o <> [].
Proof.
  intros H. destruct (gather_success C o st _ st' H) as (Hne & st1 & Hrun & _).
  destruct (check_users_success C o _ _ _ _ _ _ Hrun)
    as (l & evs & Hg & Hall & Hm & _).
  cbn [fst snd app] in Hg, Hm. subst l.
  apply Forall2_map_users in Hall.
  split; [exact Hall |]. split; [exact Hm |].
  split; [symmetry; apply (Forall2_length _ _ _ Hall) | exact Hne].
Qed.

Lemma gather_returns_witness :
  exists gathered team,
    fst (gather Reference.C0 Reference.o_merge Reference.st0)
    = inr (gathered, team)
    /\ length gathered = 2%nat
    /\ team = (None, ["work of a@x.com"; "work of b@y.com"]).
Proof.
  destruct (gather Reference.C0 Reference.o_merge Reference.st0)
    as [[e | [gathered team]] st'] eqn:H; [vm_compute in H; discriminate H |].
  exists gathered, team. split; [reflexivity |].
  destruct (gather_returns Reference.C0 Reference.o_merge Reference.st0
              gathered team st' H) as (_ & Hm & Hl & _).
  split; [exact Hl |].
  vm_compute in H. injection H as <- <- _. reflexivity.
Defined.

(** X14. The output of a run that comes to its end, in this order: with
    merge mode the [Total Report] header and the count of users; then
    the parts of the users, one line for each address in the order of
    the addresses (an item under merge mode, a header otherwise), each
    entering its collection once; then, with merge or total mode, the
    [Total Report] header when total mode is on, and the team report.
    Without merge and total mode nothing comes before or after the parts
    of the users. *)
Theorem gather_output (C : Collaborators) (o : options) (st : state)
    (gathered : list (Stats C)) (team : Stats C) (st' : state) :
  gather C o st = (inr (gathered, team), st') ->
  exists details,
    out st'
    = out st ++ opening_events o ++ details ++ closing_events C o team
    /\ Forall (fun e => is_user_detail e = true) details
    /\ List.filter is_user_line details
       = map (fun e => user_line o {| email := e |}) (emails o)
    /\ List.filter is_collect details
       = map (fun e => Collect {| email := e |}) (emails o).
Proof.
  intros H. destruct (gather_success C o st _ st' H) as (_ & st1 & Hrun & Ho).
  destruct (check_users_success C o _ _ _ _ _ _ Hrun)
    as (l & evs & _ & _ & _ & Hout & Hdet & Hline & Hcol).
  exists evs. cbn [snd] in Ho.
  split.
  { rewrite Ho, Hout. cbn [out add_out]. rewrite <- !app_assoc.
    reflexivity. }
  split; [exact Hdet |].
  rewrite Hline, Hcol, !map_map. split; reflexivity.
Qed.

Lemma gather_output_witness :
  exists details,
    out (snd (gather Reference.C0 Reference.o_merge Reference.st0))
    = [Header (Str "Total Report"); Item (Str "Users: 2") 0]
      ++ details
      ++ [PluginOut "work of a@x.com"; PluginOut "work of b@y.com"]
    /\ List.filter is_user_line details
       = [Item (OfUser {| email := "a@x.com" |}) 1;
          Item (OfUser {| email := "b@y.com" |}) 1].
Proof.
  destruct (gather Reference.C0 Reference.o_merge Reference.st0)
    as [[e | [gathered team]] st'] eqn:H; [vm_compute in H; discriminate H |].
  destruct (gather_output Reference.C0 Reference.o_merge Reference.st0
              gathered team st' H) as (details & Hout & _ & Hline & _).
  exists details. split; [| exact Hline].
  cbn [snd]. rewrite Hout.
  vm_compute in H. injection H as _ <- _. reflexivity.
Defined.

(** X15. Without merge and total mode the orchestration is the loop
    over the users and nothing else: for at least one address, result
    and state of the run are those of the loop started on the fresh team
    session, so that nothing is written before the first user and
    [team_stats.show()] is not called after the last, whether the run
    comes to its end or fails on the way; what is written are parts of
    users, with no [Total Report] header and no count of users. *)
Theorem plain_mode_output (C : Collaborators) (o : options) (st : state) :
  merge o = false -> total o = false ->
  (emails o <> [] ->
   gather C o st
   = check_users C o (map (fun e => {| email := e |}) (emails o))
       (UserStats_new C None o) [] st)
  /\ exists evs,
       out (snd (gather C o st)) = out st ++ evs
       /\ Forall (fun e => is_user_detail e = true) evs
       /\ count_total_headers evs = 0%nat.
Proof.
  intros Hm Ht.
  assert (Hloop : emails o <> [] ->
            gather C o st
            = check_users C o (map (fun e => {| email := e |}) (emails o))
                (UserStats_new C None o) [] st).
  { intros Hne. unfold gather.
    destruct (emails o) as [| e1 es]; [destruct (Hne eq_refl) |].
    cbn [map]. cbv beta iota.
    set (users := {| email := e1 |} :: map (fun e => {| email := e |}) es).
    unfold bind, when. rewrite Hm, Ht. cbn [orb]. unfold ret.
    cbv beta iota.
    destruct (check_users C o users (UserStats_new C None o) [] st)
      as [[e | r] st2]; reflexivity. }
  split; [exact Hloop |].
  assert (Hmain : exists evs,
            out (snd (gather C o st)) = out st ++ evs
            /\ Forall (fun e => is_user_detail e = true) evs).
  { destruct (emails o) as [| e1 es] eqn:E.
    - unfold gather. rewrite E.
      exists []. split; [symmetry; apply app_nil_r | constructor].
    - rewrite Hloop by discriminate. apply check_users_out. }
  destruct Hmain as (evs & Hout & Hdet).
  exists evs. split; [exact Hout |]. split; [exact Hdet |].
  apply count_total_headers_detail, Hdet.
Qed.

Lemma plain_mode_output_witness :
  gather Reference.C0 Reference.o_plain Reference.st0
  = check_users Reference.C0 Reference.o_plain
      [{| email := "a@x.com" |}; {| email := "b@y.com" |}]
      (None, []) [] Reference.st0
  /\ exists evs,
       out (snd (gather Reference.C0 Reference.o_plain Reference.st0))
       = evs
       /\ count_total_headers evs = 0%nat.
Proof.
  destruct (plain_mode_output Reference.C0 Reference.o_plain Reference.st0
              eq_refl eq_refl) as (Hloop & evs & Hout & _ & Hc).
  split; [apply Hloop; discriminate |].
  exists evs. split; [exact Hout | exact Hc].
Defined.

(** ** What [parse] returns *)

(** X16. Every options object that [parse] returns has [since] before
    [until]; and a [parse] that returns has emitted the banner of that
    range, with [until] less one day as its end, and the two debug lines,
    and nothing else. *)
Theorem parse_returns_valid_range (C : Collaborators)
    (arguments : option argval) (st : state) (o : options) (st' : state) :
  parse C arguments st = (inr o, st') ->
  since o < until o
  /\ exists p,
       out st'
       = out st
         ++ [Print ("Status report for " +:+ p +:+ " (" +:+
                    Date_str C (since o) +:+ " to "
                    +:+ Calendar.isoformat (until o - 1) +:+ ").");
             LogDebug "Gathered options:";
             LogDebugOptions o].
Proof.
  intros H. split.
  - rewrite parse_run in H. cbv zeta in H.
    destruct (Optparse.process_args C _ [] (Optparse.defaults C))
      as [v args | | why]; [| discriminate H | discriminate H].
    rewrite parse_options_run in H.
    destruct (resolve_emails C v) as [e | em]; [discriminate H |].
    destruct (resolve_range C v args) as [e | [[s u] p]];
      [discriminate H |].
    destruct (Z.ltb_spec s u) as [Hlt | Hge]; [| discriminate H].
    cbv zeta in H. injection H as <- _. exact Hlt.
  - destruct (parse_success_out C arguments st o st' H) as [p Hp].
    exists p. exact Hp.
Qed.

Lemma parse_returns_valid_range_witness :
  exists o st',
    parse Reference.C0 (Some (ArgString "last quarter")) Reference.st0
    = (inr o, st')
    /\ since o < until o.
Proof.
  destruct (parse Reference.C0 (Some (ArgString "last quarter"))
              Reference.st0) as [[e | o] st'] eqn:H;
    [vm_compute in H; discriminate H |].
  exists o, st'. split; [reflexivity |].
  apply (parse_returns_valid_range Reference.C0
           (Some (ArgString "last quarter")) Reference.st0 o st' H).
Defined.

(** X17. With [--since] or [--until] given, the positional tokens have
    no effect on [parse]: the same options and the same positions with
    any other tokens give the same result and the same state. *)
Theorem given_range_ignores_tokens (C : Collaborators) (opt : Values)
    (a b : list string) (st : state) :
  v_since opt <> None \/ v_until opt <> None ->
  parse_options C opt a st = parse_options C opt b st.
Proof.
  intros H. rewrite !parse_options_run.
  assert (Hr : resolve_range C opt a = resolve_range C opt b).
  { unfold resolve_range.
    destruct (v_since opt), (v_until opt); try reflexivity.
    destruct H as [H | H]; destruct (H eq_refl). }
  rewrite Hr. reflexivity.
Qed.

Lemma given_range_ignores_tokens_witness :
  parse_options Reference.C0
    (Optparse.set_until (Some "2024-01-10") (Optparse.defaults Reference.C0))
    ["last"; "year"] Reference.st0
  = parse_options Reference.C0
      (Optparse.set_until (Some "2024-01-10")
         (Optparse.defaults Reference.C0))
      ["today"] Reference.st0.
Proof.
  apply given_range_ignores_tokens. right. discriminate.
Defined.

(** X18. A text the date type refuses makes [parse] fail with what the
    date type raises, before the banner: the one of [--since] first,
    whatever [--until] is, then the one of [--until]. When the exception
    is of none of the classes [main] handles, [main] lets it through. *)
Theorem date_errors_propagate (C : Collaborators) (opt : Values)
    (arg : list string) (st : state) (em : list string) (d : string)
    (e : exn) :
  resolve_emails C opt = inr em ->
  d <> EmptyString ->
  Date_new C d = inl e ->
  (v_since opt = Some d ->
   parse_options C opt arg st = (inl e, after_debug C opt st)) /\
  (forall s,
     v_until opt = Some d ->
     Date_new C (or_default (v_since opt) "1993-01-01") = inr s ->
     parse_options C opt arg st = (inl e, after_debug C opt st)) /\
  (forall arguments st0 st1 class msg,
     e = OtherError class msg ->
     main_body C arguments st0 = (inl e, st1) ->
     main C arguments st0 = (inl e, st1)).
Proof.
  intros Hem Hd He.
  assert (Hor : forall dflt, or_default (Some d) dflt = d).
  { intros dflt. destruct d; [contradiction | reflexivity]. }
  split; [| split].
  - intros Hs. rewrite parse_options_run, Hem.
    unfold resolve_range. rewrite Hs, Hor, He.
    destruct (v_until opt); reflexivity.
  - intros s Hu Hs. rewrite parse_options_run, Hem.
    unfold resolve_range. rewrite Hu, Hor, Hs. cbn [res_bind]. rewrite He.
    destruct (v_since opt); reflexivity.
  - intros arguments st0 st1 class msg -> H.
    rewrite main_run, H. reflexivity.
Qed.

Lemma date_errors_propagate_witness :
  fst (main Reference.C0 (Some (ArgString "--since yesterday-ish"))
         Reference.st0)
  = inl (OtherError "ValueError" "invalid date").
Proof.
  pose proof (date_errors_propagate Reference.C0
                (Optparse.set_since (Some "yesterday-ish")
                   (Optparse.defaults Reference.C0))
                [] Reference.st0 ["me@example.com"] "yesterday-ish"
                (OtherError "ValueError" "invalid date")
                eq_refl) as H.
  destruct H as (_ & _ & H); [discriminate | reflexivity |].
  rewrite (H (Some (ArgString "--since yesterday-ish")) Reference.st0
             (snd (main_body Reference.C0
                     (Some (ArgString "--since yesterday-ish"))
                     Reference.st0))
             "ValueError" "invalid date" eq_refl);
    [reflexivity | vm_compute; reflexivity].
Defined.
